(** * search_data.py: content acquisition, extraction and relevance scoring

    A shallow embedding of [search_data.py].  Python [str] values are
    modelled as [string]; a character is read as the code point below 256
    that its [ascii] value denotes (the Latin-1 range, which is also the
    range of HTTP header values as [requests] decodes them).  Calls that
    leave the program (HTTP, the search provider, the PDF and OCR
    libraries, the HTML parser, the robots.txt parser, the zero-shot
    classifier) are fields of an environment record; the network carries a
    state that each request may change, and requests, extractor calls,
    classifier calls and diagnostics are recorded as events.

    The development has two parts.  In the first, standard output takes
    every message, so that [print] always returns.  The second
    ([Printing]) gives the functions that print once more, with a standard
    output that may refuse a message, and settles there what depends on
    it: which exceptions can reach a caller. *)

From Stdlib Require Import String Ascii List Bool Arith ZArith Lia.
From Stdlib Require Import Floats.
From Stdlib Require Import Permutation.
Import ListNotations.

Local Open Scope string_scope.
Local Open Scope list_scope.
Local Open Scope nat_scope.

(** ** Python [str] operations used by the source *)

Definition str := string.

(** Line feed, the character of the literal ["\n"]. *)
Definition LF : ascii := ascii_of_nat 10.
Definition newline : str := String LF EmptyString.

(** [str.isspace] on one character, and the class [\s] of a [str] pattern:
    both are the interpreter's Unicode white-space test, which below 256
    holds of 0x09-0x0D, 0x1C-0x1F, 0x20, 0x85 and 0xA0. *)
Definition isspace (c : ascii) : bool :=
  let n := nat_of_ascii c in
  ((9 <=? n) && (n <=? 13)) || ((28 <=? n) && (n <=? 32))
  || (n =? 133) || (n =? 160).

(** [str.lower] on one character: A-Z, and the Latin-1 capitals
    0xC0-0xDE other than the multiplication sign 0xD7, move up by 32. *)
Definition lower_char (c : ascii) : ascii :=
  let n := nat_of_ascii c in
  if ((65 <=? n) && (n <=? 90))
     || ((192 <=? n) && (n <=? 222) && negb (n =? 215))
  then ascii_of_nat (n + 32) else c.

Fixpoint lower (s : str) : str :=
  match s with
  | EmptyString => EmptyString
  | String c s' => String (lower_char c) (lower s')
  end.

(** Truth value of a [str]: non-empty. *)
Definition truthy (s : str) : bool :=
  match s with EmptyString => false | String _ _ => true end.

(** [s.startswith(p)] *)
Fixpoint startswith (s p : str) : bool :=
  match p with
  | EmptyString => true
  | String a p' =>
      match s with
      | EmptyString => false
      | String b s' => Ascii.eqb a b && startswith s' p'
      end
  end.

(** [sub in s] *)
Fixpoint contains (sub s : str) : bool :=
  startswith s sub
  || match s with
     | EmptyString => false
     | String _ s' => contains sub s'
     end.

(** [s.endswith(suf)] *)
Fixpoint endswith (s suf : str) : bool :=
  String.eqb s suf
  || match s with
     | EmptyString => false
     | String _ s' => endswith s' suf
     end.

(** [s.split(sep)] for a one-character separator: never an empty list. *)
Fixpoint split (sep : ascii) (s : str) : list str :=
  match s with
  | EmptyString => [EmptyString]
  | String c s' =>
      if Ascii.eqb c sep then EmptyString :: split sep s'
      else match split sep s' with
           | [] => [String c EmptyString]
           | w :: ws => String c w :: ws
           end
  end.

(** [sep.join(l)] *)
Fixpoint join (sep : str) (l : list str) : str :=
  match l with
  | [] => EmptyString
  | [s] => s
  | s :: l' => (s ++ sep ++ join sep l')%string
  end.

(** [s.lstrip()], [s.rstrip()], [s.strip()] *)
Fixpoint lstrip (s : str) : str :=
  match s with
  | EmptyString => EmptyString
  | String c s' => if isspace c then lstrip s' else s
  end.

Fixpoint rstrip (s : str) : str :=
  match s with
  | EmptyString => EmptyString
  | String c s' =>
      match rstrip s' with
      | EmptyString => if isspace c then EmptyString else String c EmptyString
      | r => String c r
      end
  end.

Definition strip (s : str) : str := rstrip (lstrip s).

(** [re.sub(r"\s+", " ", s)]: every maximal run of white space becomes one
    space.  [in_run] tells that the previous character was white space, so
    that the run has already been replaced. *)
Fixpoint sub_ws_from (in_run : bool) (s : str) : str :=
  match s with
  | EmptyString => EmptyString
  | String c s' =>
      if isspace c
      then if in_run then sub_ws_from true s'
           else String " " (sub_ws_from true s')
      else String c (sub_ws_from false s')
  end.

Definition re_sub_ws (s : str) : str := sub_ws_from false s.

(** The idiom [re.sub(r"\s+", " ", text).strip()] of every extractor. *)
Definition normalize (text : str) : str := strip (re_sub_ws text).

(** *** A star-free fragment of [re], for the image-suffix pattern *)

Inductive regex : Type :=
| Lit (c : ascii)             (* a literal character *)
| Cat (r1 r2 : regex)         (* r1 r2 *)
| Alt (r1 r2 : regex)         (* r1 | r2 *)
| Opt (r : regex)             (* r? *)
| Eol.                        (* $ without re.MULTILINE *)

(** [match_at r s k]: [r] matches a prefix of [s] and [k] accepts the rest.
    [$] matches at the end of the string and just before a line feed that
    is the last character of the string. *)
Fixpoint match_at (r : regex) (s : str) (k : str -> bool) : bool :=
  match r with
  | Lit c =>
      match s with
      | EmptyString => false
      | String c' s' => Ascii.eqb c c' && k s'
      end
  | Cat r1 r2 => match_at r1 s (fun s' => match_at r2 s' k)
  | Alt r1 r2 => match_at r1 s k || match_at r2 s k
  | Opt r1 => match_at r1 s k || k s
  | Eol => (String.eqb s EmptyString || String.eqb s newline) && k s
  end.

(** [re.search(r, s)] as a truth value: a match at some position. *)
Fixpoint re_search (r : regex) (s : str) : bool :=
  match_at r s (fun _ => true)
  || match s with
     | EmptyString => false
     | String _ s' => re_search r s'
     end.

(** [r"\.(png|jpe?g|gif|bmp|tif)$"] *)
Definition image_suffix_re : regex :=
  Cat (Lit ".")
    (Cat (Alt (Cat (Lit "p") (Cat (Lit "n") (Lit "g")))
         (Alt (Cat (Lit "j") (Cat (Lit "p") (Cat (Opt (Lit "e")) (Lit "g"))))
         (Alt (Cat (Lit "g") (Cat (Lit "i") (Lit "f")))
         (Alt (Cat (Lit "b") (Cat (Lit "m") (Lit "p")))
              (Cat (Lit "t") (Cat (Lit "i") (Lit "f")))))))
         Eol).


(** ** Exceptions, results and events *)

Definition bytes := list Byte.byte.

Inductive exn : Type :=
| RequestException (msg : str) (* requests.exceptions.RequestException, subclasses included *)
| ValueError (msg : str)
| IndexError (msg : str)
| OtherException (msg : str).  (* any other subclass of Exception *)

Definition is_RequestException (e : exn) : bool :=
  match e with RequestException _ => true | _ => false end.

Inductive result (A : Type) : Type :=
| Return (a : A)
| Raise (e : exn).
Arguments Return {A} a.
Arguments Raise {A} e.

(** What [requests.get] hands back: [status_code], the Content-Type header
    when present ([resp.headers.get("Content-Type", ...)]), and the two body
    accessors, each of which may raise while the body is read or decoded. *)
Record Response : Type := {
  status_code : Z;
  content_type : option str;
  content : result bytes;
  text : result str
}.

(** The value of [classifier(text, labels)]. *)
Record ClassifierOutput : Type := {
  labels : list str;
  scores : list float
}.

(** A search hit as the provider returns it: a [dict] from [str] to [str]. *)
Definition dict := list (str * str).

Fixpoint dict_get (d : dict) (k default : str) : str :=
  match d with
  | [] => default
  | (k', v) :: d' => if String.eqb k' k then v else dict_get d' k default
  end.

(** The [dict] appended to [results], as a record of its five keys. *)
Record ResultRecord : Type := {
  title : str;
  link : str;
  snippet : str;
  full_text : str;
  academic_score : float
}.

(** The messages the source prints. *)
Inductive diagnostic : Type :=
| D_http_error (status : Z)
| D_pdfplumber_failed (e : exn)
| D_pdf_to_image_failed (e : exn)
| D_ocr_failed (e : exn)
| D_image_ocr_failed (e : exn)
| D_pdfplumber_no_text
| D_unknown_content_type (ct : str)
| D_connect_failed (url : str) (e : exn)
| D_cannot_fetch (url : str) (e : exn)
| D_robots_disallowed (url : str)
| D_skipped (link : str).

Inductive event : Type :=
| Ev_ddgs_text (query : str) (max_results : Z)
| Ev_requests_get (url : str) (timeout : Z)
| Ev_webdriver (url : str)
| Ev_pdfplumber (pdf_bytes : bytes)
| Ev_convert_from_bytes (pdf_bytes : bytes)
| Ev_Image_open (image_bytes : bytes)
| Ev_image_to_string
| Ev_BeautifulSoup (html : str)
| Ev_classifier (text : str) (labels : list str)
| Ev_print (d : diagnostic).

Definition is_network (e : event) : bool :=
  match e with
  | Ev_ddgs_text _ _ | Ev_requests_get _ _ | Ev_webdriver _ => true
  | _ => false
  end.

Definition is_classifier (e : event) : bool :=
  match e with Ev_classifier _ _ => true | _ => false end.

(** ** The environment

    Everything the module imports and calls.  [Net] is the state of the
    outside world as the network calls see and change it; the libraries
    that work on bytes already fetched are functions of their arguments. *)
Record Env : Type := {
  Net : Type;
  image : Type;
  (* requests.get(url, headers=..., timeout=..., stream=...) *)
  requests_get : str -> list (str * str) -> Z -> bool -> Net -> result Response * Net;
  (* with DDGS() as ddgs: ddgs.text(keywords=query, ..., max_results=max_results) *)
  ddgs_text : str -> Z -> Net -> result (list dict) * Net;
  (* whether the import of robotexclusionrulesparser succeeded *)
  ROBOTS_PARSER_AVAILABLE : bool;
  (* tldextract.extract(url).registered_domain *)
  registered_domain : str -> str;
  (* rp = RobotExclusionRulesParser(); rp.parse(text); rp.is_allowed(agent, url) *)
  robots_is_allowed : str -> str -> str -> result bool;
  (* pdfplumber.open(io.BytesIO(b)): page.extract_text() of every page, in order *)
  pdfplumber_pages : bytes -> result (list (option str));
  (* convert_from_bytes(b, dpi=dpi) *)
  convert_from_bytes : bytes -> Z -> result (list image);
  (* Image.open(io.BytesIO(b)) *)
  Image_open : bytes -> result image;
  (* pytesseract.image_to_string(img, lang=lang) *)
  image_to_string : image -> str -> result str;
  (* BeautifulSoup(html, "html.parser"), script/style/noscript decomposed,
     then get_text(separator="\n") *)
  soup_get_text : str -> result str;
  (* the zero-shot classification pipeline *)
  classifier : str -> list str -> result ClassifierOutput;
  (* webdriver.Chrome(options), driver.get(url), driver.page_source *)
  webdriver_Chrome : Net -> result unit * Net;
  driver_page_source : str -> Z -> Net -> result str * Net
}.

(** ** A scripted environment

    A deterministic stand-in for the outside world, used to run the program
    on concrete inputs: the web is a table from urls to responses, a PDF is
    described by what its text layer and its page scans hold, an image is
    the outcome of recognising it, and the classifier gives every label the
    score one half. *)
Module Double.

Record Script : Type := {
  web : str -> result Response;
  hits : result (list dict);
  parser_available : bool;
  domain_of : str -> str;
  pdf_text_layer : bytes -> result (list (option str));
  pdf_scans : bytes -> result (list (result str));
  picture : bytes -> result (result str)
}.

Definition uniform_classifier (text : str) (l : list str)
  : result ClassifierOutput :=
  Return {| labels := l; scores := map (fun _ => 0.5%float) l |}.

(** The policy forbids everything when it holds a line [Disallow: /]. *)
Definition simple_parser (policy agent url : str) : result bool :=
  Return (negb (contains "Disallow: /" policy)).

Definition env (s : Script) : Env := {|
  Net := nat;
  image := result str;
  requests_get := fun url _ _ _ n => (web s url, S n);
  ddgs_text := fun _ _ n => (hits s, S n);
  ROBOTS_PARSER_AVAILABLE := parser_available s;
  registered_domain := domain_of s;
  robots_is_allowed := simple_parser;
  pdfplumber_pages := pdf_text_layer s;
  convert_from_bytes := fun b _ => pdf_scans s b;
  Image_open := picture s;
  image_to_string := fun img _ => img;
  soup_get_text := fun html => Return html;
  classifier := uniform_classifier;
  webdriver_Chrome := fun n => (Return tt, S n);
  driver_page_source := fun url _ n =>
    (match web s url with
     | Return resp => text resp
     | Raise e => Raise e
     end, S n)
|}.

(** A response with status 200. *)
Definition ok (ct body : str) : Response := {|
  status_code := 200;
  content_type := Some ct;
  content := Return (list_byte_of_string body);
  text := Return body
|}.

End Double.

(** ** A small web

    Two domains.  [example.com] allows every agent and serves an HTML page,
    a PDF with a text layer, a scanned PDF of two pages and a picture;
    [blocked.example] forbids every agent; any other host cannot be
    reached. *)
Module Web.

Import Double.

Definition is_bytes (b : bytes) (s : str) : bool :=
  String.eqb (string_of_list_byte b) s.

Definition policy_allow_all : str := "User-agent: *".
Definition policy_deny_all : str :=
  ("User-agent: *" ++ newline ++ "Disallow: /")%string.

Definition not_found : Response := {|
  status_code := 404;
  content_type := Some "text/html";
  content := Return [];
  text := Return EmptyString
|}.

Definition web (url : str) : result Response :=
  if String.eqb url "http://example.com/robots.txt"
  then Return (ok "text/plain" policy_allow_all)
  else if String.eqb url "http://blocked.example/robots.txt"
  then Return (ok "text/plain" policy_deny_all)
  else if String.eqb url "http://example.com/page"
  then Return (ok "text/html; charset=utf-8" "  Hello   World ")
  else if String.eqb url "http://example.com/a.pdf"
  then Return (ok "application/pdf" "TEXT-PDF")
  else if String.eqb url "http://example.com/scan.pdf"
  then Return (ok "application/pdf" "SCAN-PDF")
  else if String.eqb url "http://example.com/blank.pdf"
  then Return (ok "application/pdf" "BLANK-PDF")
  else if String.eqb url "http://example.com/photo.png"
  then Return (ok "application/octet-stream" "PNG")
  else if String.eqb url "http://blocked.example/x"
  then Return (ok "text/html" "secret")
  else if startswith url "http://example.com/"
  then Return not_found
  else Raise (RequestException "connection refused").

Definition domain_of (url : str) : str :=
  if startswith url "http://example.com/" then "example.com"
  else if startswith url "http://blocked.example/" then "blocked.example"
  else EmptyString.

Definition pdf_text_layer (b : bytes) : result (list (option str)) :=
  if is_bytes b "TEXT-PDF" then Return [Some "Hello World"]
  else if is_bytes b "SCAN-PDF" then Return [None; None]
  else if is_bytes b "BLANK-PDF" then Return [None]
  else Raise (OtherException "no PDF header").

Definition pdf_scans (b : bytes) : result (list (result str)) :=
  if is_bytes b "SCAN-PDF" then Return [Return "a"; Return "b"]
  else if is_bytes b "BLANK-PDF" then Return [Return " "]
  else if is_bytes b "TEXT-PDF" then Return [Return "Hello World"]
  else Raise (OtherException "cannot rasterize").

Definition picture (b : bytes) : result (result str) :=
  if is_bytes b "PNG" then Return (Return "a  picture")
  else Raise (OtherException "cannot identify image file").

Definition hit (t href body : str) : dict :=
  [("title", t); ("href", href); ("body", body)].

(** The hits of the end-to-end scenario of the specification. *)
Definition two_hits : list dict :=
  [hit "A paper" "http://example.com/a.pdf" "first";
   hit "Blocked" "http://blocked.example/x" "second"].

Definition script (found : list dict) : Script := {|
  Double.web := web;
  hits := Return found;
  parser_available := true;
  Double.domain_of := domain_of;
  Double.pdf_text_layer := pdf_text_layer;
  Double.pdf_scans := pdf_scans;
  Double.picture := picture
|}.

Definition world (found : list dict) : Env := env (script found).

(** The world in which the search returns the two hits. *)
Definition W : Env := world two_hits.

Definition text_pdf : bytes := list_byte_of_string "TEXT-PDF".
Definition scan_pdf : bytes := list_byte_of_string "SCAN-PDF".

End Web.


(** ** The console and the result file

    What [main] needs beside the environment of the pipeline: the parser of
    [int] on a [str], and the writing of the result file. *)
Record Console : Type := {
  (* int(s) *)
  int_of_str : str -> result Z;
  (* with open(name, "w", encoding="utf-8") as f:
       json.dump(results, f, ensure_ascii=False, indent=4) *)
  dump_json : str -> list ResultRecord -> result unit
}.

(** A stand-in console: [int] reads plain decimal digits, and the disk
    accepts every file. *)
Module Desk.

Definition digit (c : ascii) : option Z :=
  let n := nat_of_ascii c in
  if (48 <=? n) && (n <=? 57) then Some (Z.of_nat (n - 48)) else None.

Fixpoint digits (acc : Z) (s : str) : result Z :=
  match s with
  | EmptyString => Return acc
  | String c s' =>
      match digit c with
      | Some d => digits (10 * acc + d) s'
      | None => Raise (ValueError "invalid literal for int() with base 10")
      end
  end.

Definition int_ (s : str) : result Z :=
  match s with
  | EmptyString => Raise (ValueError "invalid literal for int() with base 10")
  | _ => digits 0 s
  end.

Definition console : Console := {|
  int_of_str := int_;
  dump_json := fun _ _ => Return tt
|}.

(** The record of the paper of the small web. *)
Definition the_record : ResultRecord := {|
  title := "A paper";
  link := "http://example.com/a.pdf";
  snippet := "first";
  full_text := "Hello World";
  academic_score := 0.5
|}.

End Desk.

(** ** A classifier that fails

    The small web with a search that returns three hits and a classifier
    that runs out of memory on the text of the picture. *)
Module Flaky.

Definition with_classifier (e : Env)
    (c : str -> list str -> result ClassifierOutput) : Env := {|
  Net := Net e;
  image := image e;
  requests_get := requests_get e;
  ddgs_text := ddgs_text e;
  ROBOTS_PARSER_AVAILABLE := ROBOTS_PARSER_AVAILABLE e;
  registered_domain := registered_domain e;
  robots_is_allowed := robots_is_allowed e;
  pdfplumber_pages := pdfplumber_pages e;
  convert_from_bytes := convert_from_bytes e;
  Image_open := Image_open e;
  image_to_string := image_to_string e;
  soup_get_text := soup_get_text e;
  classifier := c;
  webdriver_Chrome := webdriver_Chrome e;
  driver_page_source := driver_page_source e
|}.

Definition out_of_memory : exn := OtherException "out of memory".

Definition moody_classifier (text : str) (l : list str)
  : result ClassifierOutput :=
  if String.eqb text "a picture" then Raise out_of_memory
  else Double.uniform_classifier text l.

Definition paper : dict :=
  Web.hit "A paper" "http://example.com/a.pdf" "first".
Definition photo : dict :=
  Web.hit "A photo" "http://example.com/photo.png" "second".
Definition page : dict :=
  Web.hit "A page" "http://example.com/page" "third".

Definition three_hits : list dict := [paper; photo; page].

Definition world : Env :=
  with_classifier (Web.world three_hits) moody_classifier.

End Flaky.

(** ** The monad: network state in, result, network state and events out *)

Section Program.

Variable env : Env.

Definition M (A : Type) : Type :=
  Net env -> result A * Net env * list event.

Definition ret {A} (a : A) : M A := fun n => (Return a, n, []).

Definition raise {A} (e : exn) : M A := fun n => (Raise e, n, []).

Definition bind {A B} (m : M A) (k : A -> M B) : M B :=
  fun n =>
    match m n with
    | (Return a, n1, ev1) =>
        match k a n1 with (r, n2, ev2) => (r, n2, ev1 ++ ev2) end
    | (Raise e, n1, ev1) => (Raise e, n1, ev1)
    end.

(** [try: m / except Exception as e: h e] *)
Definition try_except {A} (m : M A) (h : exn -> M A) : M A :=
  fun n =>
    match m n with
    | (Return a, n1, ev1) => (Return a, n1, ev1)
    | (Raise e, n1, ev1) =>
        match h e n1 with (r, n2, ev2) => (r, n2, ev1 ++ ev2) end
    end.

Definition emit (e : event) : M unit := fun n => (Return tt, n, [e]).

(** [print(message)], with a standard output that takes every message;
    [Printing.print] is the one that may raise. *)
Definition print (d : diagnostic) : M unit := emit (Ev_print d).

(** A library call that does not touch the network. *)
Definition call {A} (e : event) (r : result A) : M A :=
  fun n => (r, n, [e]).

(** A library call that does. *)
Definition call_net {A} (e : event) (f : Net env -> result A * Net env) : M A :=
  fun n => match f n with (r, n1) => (r, n1, [e]) end.

Definition lift {A} (r : result A) : M A := fun n => (r, n, []).

Notation "x <- m ;; k" := (bind m (fun x => k))
  (at level 61, m at next level, right associativity).
Notation "m ;;; k" := (bind m (fun _ => k))
  (at level 61, right associativity).

Definition result_of {A} (o : result A * Net env * list event) : result A :=
  fst (fst o).
Definition net_of {A} (o : result A * Net env * list event) : Net env :=
  snd (fst o).
Definition events_of {A} (o : result A * Net env * list event) : list event :=
  snd o.

(** ** Zero-shot classification *)

(** [l.index(x)] *)
Fixpoint list_index (l : list str) (x : str) : option nat :=
  match l with
  | [] => None
  | y :: l' =>
      if String.eqb y x then Some 0
      else match list_index l' x with
           | Some i => Some (S i)
           | None => None
           end
  end.

Definition index (l : list str) (x : str) : M nat :=
  match list_index l x with
  | Some i => ret i
  | None => raise (ValueError "is not in list")
  end.

(** [l[i]] for an index that is not negative *)
Definition getitem {A} (l : list A) (i : nat) : M A :=
  match nth_error l i with
  | Some a => ret a
  | None => raise (IndexError "list index out of range")
  end.

Definition get_relate_domain_score (text binary_labels : str) : M float :=
  if negb (truthy (strip text)) then ret 0%float
  else
    let target_labels := split " " binary_labels in
    match target_labels with
    | t0 :: t1 :: _ =>
        let labels_ := [t0; t1] in
        result <- call (Ev_classifier text labels_)
                       (classifier env text labels_) ;;
        relation_idx <- index (labels result) t0 ;;
        relate_domain_score <- getitem (scores result) relation_idx ;;
        ret relate_domain_score
    | _ =>
        raise (ValueError "target_labels must contain at least two elements.")
    end.

(** ** Crawl permission *)

Definition can_crawl (url : str) : M bool :=
  if negb (ROBOTS_PARSER_AVAILABLE env) then ret true
  else
    let domain := registered_domain env url in
    if negb (truthy domain) then ret true
    else
      let robots_url := ("http://" ++ domain ++ "/robots.txt")%string in
      try_except
        (resp <- call_net (Ev_requests_get robots_url 15)
                          (requests_get env robots_url [] 15 false) ;;
         if (status_code resp =? 200)%Z then
           body <- lift (text resp) ;;
           lift (robots_is_allowed env body "*" url)
         else ret true)
        (fun _ => ret true).

(** ** The dynamic-page fetcher, switched off *)

Definition USE_SELENIUM : bool := false.

Definition fetch_full_text_selenium (url : str) (timeout : Z) : M str :=
  call_net (Ev_webdriver url) (webdriver_Chrome env) ;;;
  page <- try_except
            (html <- call_net (Ev_webdriver url)
                              (driver_page_source env url timeout) ;;
             ret (Some html))
            (fun _ => ret None) ;;
  match page with
  | None => ret ""
  | Some html =>
      text <- call (Ev_BeautifulSoup html) (soup_get_text env html) ;;
      ret (normalize text)
  end.

(** ** Extractors *)

(** The pages whose [extract_text()] is a non-empty string. *)
Fixpoint text_pages_of (pages : list (option str)) : list str :=
  match pages with
  | [] => []
  | Some page_text :: pages' =>
      if truthy page_text then page_text :: text_pages_of pages'
      else text_pages_of pages'
  | None :: pages' => text_pages_of pages'
  end.

Definition parse_pdf_with_pdfplumber (pdf_bytes : bytes) : M str :=
  try_except
    (pages <- call (Ev_pdfplumber pdf_bytes) (pdfplumber_pages env pdf_bytes) ;;
     let text_pages := text_pages_of pages in
     let text := join newline text_pages in
     let text := normalize text in
     ret text)
    (fun e => print (D_pdfplumber_failed e) ;;; ret "").

(** The loop [for img in images] of [parse_pdf_with_ocr]; [ocr_texts] is the
    list built so far. *)
Fixpoint parse_pdf_with_ocr_loop (images : list (image env))
    (ocr_texts : list str) : M (list str) :=
  match images with
  | [] => ret ocr_texts
  | img :: images' =>
      ocr_texts <- try_except
                     (text <- call Ev_image_to_string
                                   (image_to_string env img "chi_tra") ;;
                      let text := normalize text in
                      if truthy text then ret (ocr_texts ++ [text])
                      else ret ocr_texts)
                     (fun e => print (D_ocr_failed e) ;;; ret ocr_texts) ;;
      parse_pdf_with_ocr_loop images' ocr_texts
  end.

Definition parse_pdf_with_ocr (pdf_bytes : bytes) : M str :=
  converted <- try_except
                 (images <- call (Ev_convert_from_bytes pdf_bytes)
                                 (convert_from_bytes env pdf_bytes 300) ;;
                  ret (Some images))
                 (fun e => print (D_pdf_to_image_failed e) ;;; ret None) ;;
  match converted with
  | None => ret ""
  | Some images =>
      ocr_texts <- parse_pdf_with_ocr_loop images [] ;;
      ret (join newline ocr_texts)
  end.

Definition parse_image_with_ocr (image_bytes : bytes) : M str :=
  try_except
    (img <- call (Ev_Image_open image_bytes) (Image_open env image_bytes) ;;
     text <- call Ev_image_to_string (image_to_string env img "chi_tra") ;;
     let text := normalize text in
     ret text)
    (fun e => print (D_image_ocr_failed e) ;;; ret "").

Definition parse_html (html_text : str) : M str :=
  text <- call (Ev_BeautifulSoup html_text) (soup_get_text env html_text) ;;
  let text := normalize text in
  ret text.

(** ** Format dispatch and the fetcher *)

Inductive Format : Type := PDF | IMAGE | HTML | UNKNOWN.

(** The conditions of the [if]/[elif] chain of [fetch_full_text_requests],
    on the lower-cased Content-Type and the url. *)
Definition classify (content_type url : str) : Format :=
  if contains "pdf" content_type || endswith (lower url) ".pdf" then PDF
  else if contains "image" content_type
          || re_search image_suffix_re (lower url) then IMAGE
  else if contains "html" content_type then HTML
  else UNKNOWN.

(** [resp.headers.get("Content-Type", "").lower()] *)
Definition content_type_of (resp : Response) : str :=
  lower (match content_type resp with Some v => v | None => "" end).

Definition fetch_full_text_requests (url : str) (timeout : Z) : M str :=
  let headers := [("User-Agent", "Mozilla/5.0")] in
  try_except
    (resp <- call_net (Ev_requests_get url timeout)
                      (requests_get env url headers timeout true) ;;
     if negb (status_code resp =? 200)%Z then
       print (D_http_error (status_code resp)) ;;; ret ""
     else
       let content_type := content_type_of resp in
       content_bytes <- lift (content resp) ;;
       match classify content_type url with
       | PDF =>
           text <- parse_pdf_with_pdfplumber content_bytes ;;
           if negb (truthy (strip text)) then
             print D_pdfplumber_no_text ;;;
             parse_pdf_with_ocr content_bytes
           else ret text
       | IMAGE => parse_image_with_ocr content_bytes
       | HTML =>
           html_text <- lift (text resp) ;;
           parse_html html_text
       | UNKNOWN =>
           print (D_unknown_content_type content_type) ;;; ret ""
       end)
    (fun e =>
       if is_RequestException e
       then print (D_connect_failed url e) ;;; ret ""
       else print (D_cannot_fetch url e) ;;; ret "").

Definition fetch_full_text (url : str) (timeout : Z) : M str :=
  allowed <- can_crawl url ;;
  if negb allowed then
    print (D_robots_disallowed url) ;;; ret ""
  else if USE_SELENIUM then fetch_full_text_selenium url timeout
  else fetch_full_text_requests url timeout.

(** ** The pipeline *)

(** The loop [for r in raw_results] of [search_duckduckgo]; [results] is the
    list built so far. *)
Fixpoint search_duckduckgo_loop (raw_results : list dict)
    (binary_labels : str) (results : list ResultRecord)
  : M (list ResultRecord) :=
  match raw_results with
  | [] => ret results
  | r :: raw_results' =>
      let title_ := dict_get r "title" "" in
      let link_ := dict_get r "href" "" in
      let snippet_ := dict_get r "body" "" in
      full_text_ <- fetch_full_text link_ 10 ;;
      if negb (truthy full_text_) then
        print (D_skipped link_) ;;;
        search_duckduckgo_loop raw_results' binary_labels results
      else
        relate_score <- get_relate_domain_score full_text_ binary_labels ;;
        search_duckduckgo_loop raw_results' binary_labels
          (results ++ [{| title := title_;
                          link := link_;
                          snippet := snippet_;
                          full_text := full_text_;
                          academic_score := relate_score |}])
  end.

Definition search_duckduckgo (query binary_labels : str) (max_results : Z)
  : M (list ResultRecord) :=
  raw_results <- call_net (Ev_ddgs_text query max_results)
                          (ddgs_text env query max_results) ;;
  search_duckduckgo_loop raw_results binary_labels [].


(** ** Properties of texts *)

Definition first_char (s : str) : option ascii :=
  match s with
  | EmptyString => None
  | String c _ => Some c
  end.

Fixpoint last_char (s : str) : option ascii :=
  match s with
  | EmptyString => None
  | String c EmptyString => Some c
  | String _ s' => last_char s'
  end.

Definition not_space (o : option ascii) : bool :=
  match o with
  | Some c => negb (isspace c)
  | None => true
  end.

(** Every white-space character is the space character and is not followed
    by another white-space character. *)
Fixpoint single_spaced (s : str) : bool :=
  match s with
  | EmptyString => true
  | String c s' =>
      (if isspace c then Ascii.eqb c " " && not_space (first_char s')
       else true)
      && single_spaced s'
  end.

(** Fully white-space normalized: runs of white space are single spaces,
    and there is none at either end. *)
Definition normalized (s : str) : Prop :=
  single_spaced s = true
  /\ not_space (first_char s) = true
  /\ not_space (last_char s) = true.

(** Empty or white space only: what [not text.strip()] tests. *)
Fixpoint all_space (s : str) : bool :=
  match s with
  | EmptyString => true
  | String c s' => isspace c && all_space s'
  end.

(** The raster-image suffixes of the format dispatch. *)
Definition image_suffixes : list str :=
  [".png"; ".jpg"; ".jpeg"; ".gif"; ".bmp"; ".tif"].

(** [url] ends in one of the image suffixes. *)
Definition ends_in_image_suffix (url : str) : bool :=
  existsb (fun suf => endswith url suf) image_suffixes.

(** [url] ends in one of the image suffixes followed by one line feed. *)
Definition ends_in_image_suffix_newline (url : str) : bool :=
  existsb (fun suf => endswith url (suf ++ newline)%string) image_suffixes.

(** [P] holds of some suffix of [s], the whole of [s] and the empty suffix
    included. *)
Fixpoint some_suffix (P : str -> bool) (s : str) : bool :=
  P s
  || match s with
     | EmptyString => false
     | String _ s' => some_suffix P s'
     end.

(** ** Properties of scores and of the classifier *)

(** A score in the closed interval from 0 to 1. *)
Definition in_unit_interval (x : float) : Prop :=
  PrimFloat.leb 0%float x = true /\ PrimFloat.leb x 1%float = true.

(** The classifier as the scorer relies on it: for every text and label
    list it returns the labels it was given, in some order, with one score
    in the unit interval for each. *)
Definition probability_oracle : Prop :=
  forall text l,
    exists out,
      classifier env text l = Return out
      /\ Permutation (labels out) l
      /\ length (scores out) = length (labels out)
      /\ Forall in_unit_interval (scores out).

(** The number of distinct labels in the caller's label string. *)
Definition distinct_labels (binary_labels : str) : nat :=
  length (nodup string_dec (split " " binary_labels)).

(** The character [c] occurs in [s]. *)
Fixpoint has_char (c : ascii) (s : str) : bool :=
  match s with
  | EmptyString => false
  | String d s' => Ascii.eqb d c || has_char c s'
  end.

(** ** Properties of runs *)

(** [m] returns a value from every state: it never raises. *)
Definition returns {A} (m : M A) : Prop :=
  forall n, exists a n' ev, m n = (Return a, n', ev).

(** The url of the policy of the domain of [url]. *)
Definition robots_url_of (url : str) : str :=
  ("http://" ++ registered_domain env url ++ "/robots.txt")%string.

(** The policy of the domain was fetched with status 200 and forbids the
    wildcard agent to fetch [url]. *)
Definition policy_forbids (url : str) (n : Net env) : Prop :=
  ROBOTS_PARSER_AVAILABLE env = true
  /\ truthy (registered_domain env url) = true
  /\ exists resp n1 body,
       requests_get env (robots_url_of url) [] 15 false n = (Return resp, n1)
       /\ status_code resp = 200%Z
       /\ text resp = Return body
       /\ robots_is_allowed env body "*" url = Return false.

(** The diagnostic of the two [except] clauses of the fetcher. *)
Definition fetch_diagnostic (url : str) (e : exn) : diagnostic :=
  if is_RequestException e then D_connect_failed url e
  else D_cannot_fetch url e.

Definition fetch_headers : list (str * str) := [("User-Agent", "Mozilla/5.0")].

(** The failures of one fetch, each with the diagnostic it is reported by:
    the request raises (connection error, timeout); the status is not 200;
    reading the body raises; the content type is not supported; the body of
    an HTML, image or PDF resource cannot be decoded or parsed. *)
Inductive fetch_failure (url : str) (timeout : Z) (n : Net env)
  : diagnostic -> Prop :=
| Failure_request e n1 :
    requests_get env url fetch_headers timeout true n = (Raise e, n1) ->
    fetch_failure url timeout n (fetch_diagnostic url e)
| Failure_status resp n1 :
    requests_get env url fetch_headers timeout true n = (Return resp, n1) ->
    status_code resp <> 200%Z ->
    fetch_failure url timeout n (D_http_error (status_code resp))
| Failure_body resp n1 e :
    requests_get env url fetch_headers timeout true n = (Return resp, n1) ->
    status_code resp = 200%Z ->
    content resp = Raise e ->
    fetch_failure url timeout n (fetch_diagnostic url e)
| Failure_unsupported resp n1 b :
    requests_get env url fetch_headers timeout true n = (Return resp, n1) ->
    status_code resp = 200%Z ->
    content resp = Return b ->
    classify (content_type_of resp) url = UNKNOWN ->
    fetch_failure url timeout n (D_unknown_content_type (content_type_of resp))
| Failure_html_decode resp n1 b e :
    requests_get env url fetch_headers timeout true n = (Return resp, n1) ->
    status_code resp = 200%Z ->
    content resp = Return b ->
    classify (content_type_of resp) url = HTML ->
    text resp = Raise e ->
    fetch_failure url timeout n (fetch_diagnostic url e)
| Failure_html_parse resp n1 b html e :
    requests_get env url fetch_headers timeout true n = (Return resp, n1) ->
    status_code resp = 200%Z ->
    content resp = Return b ->
    classify (content_type_of resp) url = HTML ->
    text resp = Return html ->
    soup_get_text env html = Raise e ->
    fetch_failure url timeout n (fetch_diagnostic url e)
| Failure_image_decode resp n1 b e :
    requests_get env url fetch_headers timeout true n = (Return resp, n1) ->
    status_code resp = 200%Z ->
    content resp = Return b ->
    classify (content_type_of resp) url = IMAGE ->
    Image_open env b = Raise e ->
    fetch_failure url timeout n (D_image_ocr_failed e)
| Failure_image_ocr resp n1 b img e :
    requests_get env url fetch_headers timeout true n = (Return resp, n1) ->
    status_code resp = 200%Z ->
    content resp = Return b ->
    classify (content_type_of resp) url = IMAGE ->
    Image_open env b = Return img ->
    image_to_string env img "chi_tra" = Raise e ->
    fetch_failure url timeout n (D_image_ocr_failed e)
| Failure_pdf resp n1 b e1 e2 :
    requests_get env url fetch_headers timeout true n = (Return resp, n1) ->
    status_code resp = 200%Z ->
    content resp = Return b ->
    classify (content_type_of resp) url = PDF ->
    pdfplumber_pages env b = Raise e1 ->
    convert_from_bytes env b 300 = Raise e2 ->
    fetch_failure url timeout n (D_pdf_to_image_failed e2).


(** Every event of every run of [m] satisfies [P]. *)
Definition emits {A} (P : event -> bool) (m : M A) : Prop :=
  forall n, forallb P (events_of (m n)) = true.

(** A piece of extracted text: normalized and not empty. *)
Definition piece (p : str) : Prop := normalized p /\ truthy p = true.

(** A fetched text: empty, or with a character that is not white space. *)
Definition settled (t : str) : Prop := truthy (strip t) = truthy t.

Definition not_classifier (e : event) : bool := negb (is_classifier e).

(** Neither a network call nor a call of the classifier. *)
Definition is_local (e : event) : bool :=
  negb (is_network e) && negb (is_classifier e).

(** ** Properties of the pipeline *)

Definition text_of (o : result str * Net env * list event) : str :=
  match result_of o with
  | Return t => t
  | Raise _ => EmptyString
  end.

(** The hits with the text that the gated fetch of each returns, the
    fetches being made in the order of the hits, each in the state of the
    network that the one before left. *)
Fixpoint fetched (raw_results : list dict) (n : Net env) : list (dict * str) :=
  match raw_results with
  | [] => []
  | r :: raw_results' =>
      let o := fetch_full_text (dict_get r "href" "") 10 n in
      (r, text_of o) :: fetched raw_results' (net_of o)
  end.

(** The hits whose fetched text is not empty, in the order of the hits. *)
Definition survivors (raw_results : list dict) (n : Net env)
  : list (dict * str) :=
  filter (fun p => truthy (snd p)) (fetched raw_results n).

(** What a record holds of its hit, and what a surviving hit gives. *)
Definition record_fields (r : ResultRecord) : str * str * str * str :=
  (title r, link r, snippet r, full_text r).

Definition hit_fields (p : dict * str) : str * str * str * str :=
  (dict_get (fst p) "title" "", dict_get (fst p) "href" "",
   dict_get (fst p) "body" "", snd p).


(** The format dispatch in the words of the specification: PDF if the
    content type contains "pdf" or the url ends in ".pdf"; else IMAGE if the
    content type contains "image" or the url ends in one of the image
    suffixes; else HTML if the content type contains "html"; else UNKNOWN;
    the suffixes being compared without regard to case. *)
Definition classify_spec (content_type url : str) : Format :=
  if contains "pdf" content_type || endswith (lower url) ".pdf" then PDF
  else if contains "image" content_type || ends_in_image_suffix (lower url)
  then IMAGE
  else if contains "html" content_type then HTML
  else UNKNOWN.


(** ** Words and visible characters *)

(** The words of a text: its maximal runs of characters that are not white
    space, in order. *)
Fixpoint words (s : str) : list str :=
  match s with
  | EmptyString => []
  | String c s' =>
      if isspace c then words s'
      else if not_space (first_char s')
           then match words s' with
                | w :: ws => String c w :: ws
                | [] => [String c EmptyString]
                end
           else String c EmptyString :: words s'
  end.

(** The characters of a text that are not white space, in order. *)
Fixpoint visible (s : str) : str :=
  match s with
  | EmptyString => EmptyString
  | String c s' => if isspace c then visible s' else String c (visible s')
  end.

(** The text of a page as [extract_text] gives it, [None] read as empty. *)
Definition page_text (p : option str) : str :=
  match p with Some t => t | None => EmptyString end.


Definition is_request (e : event) : bool :=
  match e with Ev_requests_get _ _ => true | _ => false end.

Definition is_skip (e : event) : bool :=
  match e with Ev_print (D_skipped _) => true | _ => false end.


(** The events of a gated fetch: requests, calls of the extraction
    libraries, and the diagnostics other than the skip message of the
    pipeline. *)
Definition is_fetch_event (e : event) : bool :=
  match e with
  | Ev_ddgs_text _ _ | Ev_webdriver _ | Ev_classifier _ _ => false
  | Ev_print (D_skipped _) => false
  | _ => true
  end.

(** [m] leaves the network as it finds it. *)
Definition keeps_net {A} (m : M A) : Prop :=
  forall n, net_of (m n) = n.

Definition is_ocr_or_print (e : event) : bool :=
  match e with
  | Ev_image_to_string | Ev_print _ => true
  | _ => false
  end.

(** The events that the dispatch allows after the request, for a response
    [resp] with the body [b] that it classifies as [f]: diagnostics, and
    the calls of the extractor of [f] on this very body. *)
Definition belongs_to (f : Format) (resp : Response) (b : bytes) (e : event)
  : Prop :=
  match e with
  | Ev_print _ => True
  | Ev_pdfplumber b' => f = PDF /\ b' = b
  | Ev_convert_from_bytes b' => f = PDF /\ b' = b
  | Ev_image_to_string => f = PDF \/ f = IMAGE
  | Ev_Image_open b' => f = IMAGE /\ b' = b
  | Ev_BeautifulSoup html => f = HTML /\ text resp = Return html
  | _ => False
  end.

(** ** The entry point *)

Variable console : Console.

Inductive prompt : Type := Ask_query | Ask_labels | Ask_count.

(** The messages [main] prints. *)
Inductive message : Type :=
| Say_empty_query
| Say_start (query : str) (max_results : Z)
| Say_no_results
| Say_done (count : nat).

(** What [main] does that can be observed: it reads a line, prints a
    message, lets the pipeline act, writes the result file. *)
Inductive main_event : Type :=
| Main_input (p : prompt)
| Main_print (m : message)
| Main_search (e : event)
| Main_dump (file : str) (records : list ResultRecord).

(** The outcome of a run of [main]: how it ends, the state of the network,
    what it did, and the lines of standard input it left unread. *)
Record MainRun : Type := {
  main_exit : result unit;
  main_net : Net env;
  main_trace : list main_event;
  main_unread : list str
}.

Definition EOFError : exn := OtherException "EOFError".

(** [int(input(...) or 5)] on the line read *)
Definition max_results_of (line : str) : result Z :=
  if truthy line then int_of_str console line else Return 5%Z.

(** [main()], on the lines that standard input holds. *)
Definition main (stdin : list str) (n : Net env) : MainRun :=
  match stdin with
  | [] => {| main_exit := Raise EOFError; main_net := n;
             main_trace := [Main_input Ask_query]; main_unread := [] |}
  | query :: stdin1 =>
      if negb (truthy (strip query)) then
        {| main_exit := Return tt; main_net := n;
           main_trace := [Main_input Ask_query; Main_print Say_empty_query];
           main_unread := stdin1 |}
      else
        match stdin1 with
        | [] => {| main_exit := Raise EOFError; main_net := n;
                   main_trace := [Main_input Ask_query; Main_input Ask_labels];
                   main_unread := [] |}
        | binary_labels :: stdin2 =>
            match stdin2 with
            | [] => {| main_exit := Raise EOFError; main_net := n;
                       main_trace := [Main_input Ask_query;
                                      Main_input Ask_labels;
                                      Main_input Ask_count];
                       main_unread := [] |}
            | line :: stdin3 =>
                let asked := [Main_input Ask_query; Main_input Ask_labels;
                              Main_input Ask_count] in
                match max_results_of line with
                | Raise e =>
                    {| main_exit := Raise e; main_net := n;
                       main_trace := asked; main_unread := stdin3 |}
                | Return max_results =>
                    let started :=
                      asked ++ [Main_print (Say_start query max_results)] in
                    match search_duckduckgo query binary_labels max_results n
                    with
                    | (Raise e, n1, ev) =>
                        {| main_exit := Raise e; main_net := n1;
                           main_trace := started ++ map Main_search ev;
                           main_unread := stdin3 |}
                    | (Return results, n1, ev) =>
                        let searched := started ++ map Main_search ev in
                        match results with
                        | [] =>
                            {| main_exit := Return tt; main_net := n1;
                               main_trace :=
                                 searched ++ [Main_print Say_no_results];
                               main_unread := stdin3 |}
                        | _ :: _ =>
                            let file := "all_search_results.json" in
                            match dump_json console file results with
                            | Raise e =>
                                {| main_exit := Raise e; main_net := n1;
                                   main_trace :=
                                     searched ++ [Main_dump file results];
                                   main_unread := stdin3 |}
                            | Return _ =>
                                {| main_exit := Return tt; main_net := n1;
                                   main_trace :=
                                     searched
                                     ++ [Main_dump file results;
                                         Main_print
                                           (Say_done (length results))];
                                   main_unread := stdin3 |}
                            end
                        end
                    end
                end
            end
        end
  end.
(** ** Lemmas on texts *)

Lemma lstrip_first s : not_space (first_char (lstrip s)) = true.
Proof.
  induction s as [|c s IH]; simpl; auto.
  destruct (isspace c) eqn:E; simpl; auto. now rewrite E.
Qed.

Lemma lstrip_single_spaced s :
  single_spaced s = true -> single_spaced (lstrip s) = true.
Proof.
  induction s as [|c s IH]; simpl; auto.
  intros H. apply andb_true_iff in H as [H1 H2].
  destruct (isspace c) eqn:E; auto.
  simpl. rewrite E. simpl. exact H2.
Qed.

Lemma lstrip_id s : not_space (first_char s) = true -> lstrip s = s.
Proof.
  destruct s as [|c s]; simpl; auto.
  intros H. apply negb_true_iff in H. now rewrite H.
Qed.

Lemma rstrip_cons c s d r :
  rstrip s = String d r -> rstrip (String c s) = String c (String d r).
Proof. intros H. simpl. now rewrite H. Qed.

Lemma rstrip_first_char s d r :
  rstrip s = String d r -> first_char s = Some d.
Proof.
  destruct s as [|c s]; simpl; [discriminate|].
  destruct (rstrip s); [destruct (isspace c)|]; congruence.
Qed.

Lemma rstrip_single_spaced s :
  single_spaced s = true -> single_spaced (rstrip s) = true.
Proof.
  induction s as [|c s IH]; simpl; auto.
  intros H. apply andb_true_iff in H as [H1 H2].
  specialize (IH H2).
  destruct (rstrip s) as [|d r] eqn:R.
  - destruct (isspace c) eqn:E; simpl; auto. now rewrite E.
  - change (single_spaced (String c (String d r)))
      with ((if isspace c then Ascii.eqb c " " && not_space (Some d) else true)
            && single_spaced (String d r)).
    rewrite IH, andb_true_r.
    apply rstrip_first_char in R. now rewrite R in H1.
Qed.

Lemma rstrip_first s :
  not_space (first_char s) = true -> not_space (first_char (rstrip s)) = true.
Proof.
  destruct s as [|c s]; simpl; auto.
  intros H. destruct (rstrip s); simpl; auto.
  apply negb_true_iff in H. rewrite H. simpl. now rewrite H.
Qed.

Lemma rstrip_last s : not_space (last_char (rstrip s)) = true.
Proof.
  induction s as [|c s IH]; simpl; auto.
  destruct (rstrip s) as [|d r] eqn:R.
  - destruct (isspace c) eqn:E; simpl; auto. now rewrite E.
  - exact IH.
Qed.

Lemma rstrip_id s : not_space (last_char s) = true -> rstrip s = s.
Proof.
  induction s as [|c s IH]; simpl; auto.
  destruct s as [|d s].
  - simpl. intros H. apply negb_true_iff in H. now rewrite H.
  - intros H. rewrite (IH H). reflexivity.
Qed.

Lemma sub_ws_from_shape s :
  forall b,
    single_spaced (sub_ws_from b s) = true
    /\ (b = true -> not_space (first_char (sub_ws_from b s)) = true).
Proof.
  induction s as [|c s IH]; intros b; simpl; auto.
  destruct (isspace c) eqn:E.
  - destruct (IH true) as [H1 H2]. destruct b; auto.
    split; [|discriminate].
    simpl. rewrite H1, (H2 eq_refl). reflexivity.
  - destruct (IH false) as [H1 _]. split.
    + simpl. now rewrite E, H1.
    + intros _. simpl. now rewrite E.
Qed.

(** The idiom of the extractors yields a fully normalized text. *)
Lemma normalize_normalized s : normalized (normalize s).
Proof.
  unfold normalize, strip, re_sub_ws.
  destruct (sub_ws_from_shape s false) as [H _].
  repeat split.
  - now apply rstrip_single_spaced, lstrip_single_spaced.
  - apply rstrip_first, lstrip_first.
  - apply rstrip_last.
Qed.

Lemma normalized_strip s : normalized s -> strip s = s.
Proof.
  intros (_ & H1 & H2). unfold strip.
  rewrite (lstrip_id _ H1). now apply rstrip_id.
Qed.

Lemma strip_nonempty s c :
  first_char s = Some c -> isspace c = false -> truthy (strip s) = true.
Proof.
  destruct s as [|d s]; simpl; [discriminate|].
  intros [= ->] E. unfold strip. simpl. rewrite E.
  simpl. destruct (rstrip s); [rewrite E|]; reflexivity.
Qed.

Lemma normalized_truthy_strip s :
  normalized s -> truthy (strip s) = truthy s.
Proof. intros H. now rewrite normalized_strip. Qed.

Lemma rstrip_all_space s : all_space s = true -> rstrip s = EmptyString.
Proof.
  induction s as [|c s IH]; simpl; auto.
  intros H. apply andb_true_iff in H as [H1 H2].
  now rewrite (IH H2), H1.
Qed.

Lemma lstrip_all_space s : all_space s = true -> lstrip s = EmptyString.
Proof.
  induction s as [|c s IH]; simpl; auto.
  intros H. apply andb_true_iff in H as [H1 H2]. now rewrite H1, IH.
Qed.

(** [not text.strip()] holds exactly of the texts made of white space. *)
Lemma strip_empty_iff s : truthy (strip s) = false <-> all_space s = true.
Proof.
  split.
  - induction s as [|c s IH]; simpl; auto.
    destruct (isspace c) eqn:E.
    + unfold strip. simpl. rewrite E. exact IH.
    + intros H. rewrite (strip_nonempty (String c s) c) in H; auto.
  - intros H. unfold strip. now rewrite (lstrip_all_space _ H).
Qed.

Lemma first_char_join p l :
  truthy p = true -> first_char (join newline (p :: l)) = first_char p.
Proof. destruct p; [discriminate|]. destruct l; reflexivity. Qed.

(** ** Suffix tests and the image pattern *)

Lemma some_suffix_ext P Q s :
  (forall t, P t = Q t) -> some_suffix P s = some_suffix Q s.
Proof.
  intros H. induction s as [|c s IH]; simpl; rewrite H; auto.
  now rewrite IH.
Qed.

Lemma some_suffix_orb P Q s :
  some_suffix (fun t => P t || Q t) s = some_suffix P s || some_suffix Q s.
Proof.
  induction s as [|c s IH]; simpl.
  - now rewrite !orb_false_r.
  - rewrite IH.
    destruct (P (String c s)), (Q (String c s)), (some_suffix P s),
      (some_suffix Q s); reflexivity.
Qed.

Lemma endswith_some_suffix s suf :
  endswith s suf = some_suffix (fun t => String.eqb t suf) s.
Proof. induction s as [|c s IH]; simpl; auto. now rewrite IH. Qed.

Lemma re_search_some_suffix r s :
  re_search r s = some_suffix (fun t => match_at r t (fun _ => true)) s.
Proof. induction s as [|c s IH]; simpl; auto. now rewrite IH. Qed.

Lemma endswith_app s suf :
  endswith s suf = true <-> exists p, s = (p ++ suf)%string.
Proof.
  split.
  - induction s as [|c s IH]; cbn [endswith]; intros H.
    + rewrite orb_false_r in H. apply String.eqb_eq in H. subst.
      now exists EmptyString.
    + apply orb_true_iff in H as [H|H].
      * apply String.eqb_eq in H. rewrite H. now exists EmptyString.
      * destruct (IH H) as [p ->]. now exists (String c p).
  - intros [p ->]. induction p as [|c p IH].
    + cbn [append]. destruct suf; cbn [endswith];
        now rewrite String.eqb_refl.
    + cbn [append endswith]. now rewrite IH, orb_true_r.
Qed.

Ltac split_char :=
  match goal with
  | |- context [Ascii.eqb ?a ?b] =>
      let v := eval vm_compute in (Ascii.eqb a b) in
      match v with
      | true => change (Ascii.eqb a b) with true
      | false => change (Ascii.eqb a b) with false
      end; cbn -[Ascii.eqb]
  | |- context [match ?t with EmptyString => _ | String _ _ => _ end] =>
      is_var t; destruct t; cbn -[Ascii.eqb]
  | |- context [Ascii.eqb ?a ?b] =>
      destruct (Ascii.eqb_spec a b); [subst|]; cbn -[Ascii.eqb]
  end.

(** At one position, the pattern matches exactly an image suffix that is
    the rest of the string, or is followed by a last line feed. *)
Lemma image_suffix_re_at t :
  match_at image_suffix_re t (fun _ => true)
  = existsb (fun suf => String.eqb t suf) image_suffixes
    || existsb (fun suf => String.eqb t (suf ++ newline)%string) image_suffixes.
Proof.
  unfold image_suffix_re, image_suffixes, newline, LF.
  cbn -[Ascii.eqb].
  repeat split_char; try reflexivity; try congruence.
  all: change newline with (String "010" EmptyString);
    repeat match goal with
      | |- context [String.eqb ?a ?b] => destruct (String.eqb a b)
      end; reflexivity.
Qed.

(** [re.search] with the image pattern: the lower-cased url ends in an image
    suffix, or in an image suffix and one line feed. *)
Lemma re_search_image_suffix s :
  re_search image_suffix_re s
  = ends_in_image_suffix s || ends_in_image_suffix_newline s.
Proof.
  rewrite re_search_some_suffix.
  rewrite (some_suffix_ext _ _ s image_suffix_re_at).
  rewrite some_suffix_orb.
  unfold ends_in_image_suffix, ends_in_image_suffix_newline, image_suffixes.
  cbn [existsb].
  rewrite !endswith_some_suffix.
  rewrite !some_suffix_orb.
  assert (F : some_suffix (fun _ => false) s = false)
    by (induction s; simpl; auto).
  now rewrite !F.
Qed.

Lemma lower_char_idem c : lower_char (lower_char c) = lower_char c.
Proof. destruct c as [[] [] [] [] [] [] [] []]; reflexivity. Qed.

Lemma lower_idem s : lower (lower s) = lower s.
Proof.
  induction s as [|c s IH]; simpl; auto.
  now rewrite lower_char_idem, IH.
Qed.

(** ** Splitting the label string *)

Lemma split_not_nil sep s : split sep s <> [].
Proof.
  destruct s as [|c s]; simpl; [discriminate|].
  destruct (Ascii.eqb c sep); [discriminate|].
  destruct (split sep s); discriminate.
Qed.

Lemma split_no_sep sep s :
  Forall (fun t => has_char sep t = false) (split sep s).
Proof.
  induction s as [|c s IH]; simpl.
  - constructor; auto.
  - destruct (Ascii.eqb c sep) eqn:E.
    + constructor; auto.
    + destruct (split sep s) as [|w ws].
      * constructor; auto. simpl. now rewrite E.
      * inversion IH; subst. constructor; auto. simpl. now rewrite E.
Qed.

Lemma split_without_sep sep s :
  has_char sep s = false -> split sep s = [s].
Proof.
  induction s as [|c s IH]; simpl; auto.
  intros H. apply orb_false_iff in H as [H1 H2].
  now rewrite H1, (IH H2).
Qed.

Lemma split_app sep t s :
  has_char sep t = false ->
  split sep (t ++ String sep s)%string = t :: split sep s.
Proof.
  induction t as [|c t IH]; simpl.
  - now rewrite Ascii.eqb_refl.
  - intros H. apply orb_false_iff in H as [H1 H2].
    now rewrite H1, (IH H2).
Qed.

(** Fewer than two tokens: the label string holds no space. *)
Lemma split_short sep s :
  length (split sep s) < 2 <-> has_char sep s = false.
Proof.
  split.
  - induction s as [|c s IH]; simpl; auto.
    destruct (Ascii.eqb c sep) eqn:E; simpl.
    + pose proof (split_not_nil sep s).
      destruct (split sep s); simpl; [congruence|lia].
    + intros H. apply IH.
      destruct (split sep s); simpl in *; lia.
  - intros H. rewrite (split_without_sep _ _ H). simpl. lia.
Qed.

(** ** The scorer *)

Lemma list_index_nth l x i :
  list_index l x = Some i -> nth_error l i = Some x.
Proof.
  revert i. induction l as [|y l IH]; simpl; [discriminate|].
  intros i. destruct (String.eqb_spec y x).
  - intros [= <-]. now subst.
  - destruct (list_index l x); [|discriminate].
    intros [= <-]. simpl. now apply IH.
Qed.

Lemma list_index_in l x :
  In x l -> exists i, list_index l x = Some i /\ i < length l.
Proof.
  induction l as [|y l IH]; simpl; [tauto|].
  intros H. destruct (String.eqb_spec y x).
  - exists 0. split; auto. lia.
  - destruct H as [H|H]; [congruence|].
    destruct (IH H) as (i & -> & Hi). exists (S i). split; auto. lia.
Qed.

(** On empty or white-space text the scorer returns 0.0 at once: no label
    is looked at and no call is made. *)
Lemma score_blank text binary_labels n :
  all_space text = true ->
  get_relate_domain_score text binary_labels n = (Return 0%float, n, []).
Proof.
  intros H. apply strip_empty_iff in H.
  unfold get_relate_domain_score. now rewrite H.
Qed.

(** On other text, with at least two tokens, the classifier is called once,
    with the first two tokens. *)
Lemma score_run text binary_labels t0 t1 rest n :
  all_space text = false ->
  split " " binary_labels = t0 :: t1 :: rest ->
  get_relate_domain_score text binary_labels n
  = match classifier env text [t0; t1] with
    | Return out =>
        match list_index (labels out) t0 with
        | Some i =>
            match nth_error (scores out) i with
            | Some s => (Return s, n, [Ev_classifier text [t0; t1]])
            | None => (Raise (IndexError "list index out of range"), n,
                       [Ev_classifier text [t0; t1]])
            end
        | None => (Raise (ValueError "is not in list"), n,
                   [Ev_classifier text [t0; t1]])
        end
    | Raise e => (Raise e, n, [Ev_classifier text [t0; t1]])
    end.
Proof.
  intros H S.
  assert (T : truthy (strip text) = true).
  { destruct (truthy (strip text)) eqn:E; auto.
    apply strip_empty_iff in E. congruence. }
  unfold get_relate_domain_score. rewrite T, S. cbn [negb].
  unfold bind, call, index, getitem, ret, raise.
  destruct (classifier env text [t0; t1]) as [out|e]; auto.
  destruct (list_index (labels out) t0) as [i|]; auto.
  destruct (nth_error (scores out) i); auto.
Qed.

(** On other text, with fewer than two tokens, the scorer raises before
    any call. *)
Lemma score_config_error text binary_labels n :
  all_space text = false ->
  length (split " " binary_labels) < 2 ->
  get_relate_domain_score text binary_labels n
  = (Raise (ValueError "target_labels must contain at least two elements."),
     n, []).
Proof.
  intros H L.
  assert (T : truthy (strip text) = true).
  { destruct (truthy (strip text)) eqn:E; auto.
    apply strip_empty_iff in E. congruence. }
  unfold get_relate_domain_score. rewrite T. cbn [negb].
  destruct (split " " binary_labels) as [|t0 [|t1 rest]]; auto.
  simpl in L. lia.
Qed.

Lemma in_unit_interval_zero : in_unit_interval 0%float.
Proof. split; reflexivity. Qed.

(** With a classifier that returns a distribution over the labels it was
    given, the scorer returns a score of the unit interval. *)
Lemma score_returns (O : probability_oracle) text binary_labels n :
  2 <= length (split " " binary_labels) ->
  exists s ev,
    get_relate_domain_score text binary_labels n = (Return s, n, ev)
    /\ in_unit_interval s.
Proof.
  intros L.
  destruct (all_space text) eqn:B.
  - exists 0%float, []. split; [now apply score_blank|].
    apply in_unit_interval_zero.
  - destruct (split " " binary_labels) as [|t0 [|t1 rest]] eqn:S;
      simpl in L; try lia.
    rewrite (score_run _ _ _ _ _ n B S).
    destruct (O text [t0; t1]) as (out & -> & P & Len & U).
    assert (I : In t0 (labels out)).
    { apply Permutation_sym in P.
      apply (Permutation_in _ P). now left. }
    destruct (list_index_in _ _ I) as (i & -> & Hi).
    rewrite <- Len in Hi.
    destruct (nth_error (scores out) i) as [s|] eqn:N.
    + exists s, [Ev_classifier text [t0; t1]]. split; auto.
      rewrite Forall_forall in U. apply U.
      now apply nth_error_In in N.
    + apply nth_error_None in N. lia.
Qed.

(** C4. For every text and every label string of at least two labels the
    score lies in the closed interval from 0 to 1, given a classifier that
    returns a probability for each label it was given; for empty or
    white-space text the score is exactly 0.0 and the classifier is not
    called. *)
Theorem score_unit_interval_and_blank_zero
    (O : probability_oracle) text binary_labels n :
  2 <= length (split " " binary_labels) ->
  (exists s ev,
      get_relate_domain_score text binary_labels n = (Return s, n, ev)
      /\ in_unit_interval s)
  /\ (all_space text = true ->
      get_relate_domain_score text binary_labels n = (Return 0%float, n, [])).
Proof.
  intros L. split.
  - now apply score_returns.
  - apply score_blank.
Qed.

(** C5, as amended.  A label string that splits on the space character into
    fewer than two tokens is a configuration error for every text that
    holds a character other than white space: the scorer raises a
    [ValueError] and calls nothing.  For empty or white-space text the
    short cut of the docstring comes first, and 0.0 is returned whatever
    the labels. *)
Theorem score_configuration_error text binary_labels n :
  length (split " " binary_labels) < 2 ->
  (all_space text = false ->
   get_relate_domain_score text binary_labels n
   = (Raise (ValueError "target_labels must contain at least two elements."),
      n, []))
  /\ (all_space text = true ->
      get_relate_domain_score text binary_labels n = (Return 0%float, n, [])).
Proof.
  intros L. split; intros B.
  - now apply score_config_error.
  - now apply score_blank.
Qed.

(** C10. The labels are the tokens of the caller's string between spaces,
    so no label holds a space; of three or more tokens only the first two
    reach the classifier, the run being that of the string made of these
    two; and a returned score is the one the classifier gave at the place
    of the first token in its answer. *)
Theorem score_uses_first_two_tokens text binary_labels t0 t1 rest n :
  all_space text = false ->
  split " " binary_labels = t0 :: t1 :: rest ->
  Forall (fun t => has_char " " t = false) (t0 :: t1 :: rest)
  /\ events_of (get_relate_domain_score text binary_labels n)
     = [Ev_classifier text [t0; t1]]
  /\ get_relate_domain_score text binary_labels n
     = get_relate_domain_score text (t0 ++ " " ++ t1)%string n
  /\ (forall s,
        result_of (get_relate_domain_score text binary_labels n) = Return s ->
        exists out i,
          classifier env text [t0; t1] = Return out
          /\ list_index (labels out) t0 = Some i
          /\ nth_error (labels out) i = Some t0
          /\ nth_error (scores out) i = Some s).
Proof.
  intros B S.
  assert (F : Forall (fun t => has_char " " t = false) (t0 :: t1 :: rest)).
  { rewrite <- S. apply split_no_sep. }
  assert (S2 : split " " (t0 ++ " " ++ t1)%string = [t0; t1]).
  { inversion F as [|? ? F0 F']; subst. inversion F' as [|? ? F1 _]; subst.
    change (t0 ++ " " ++ t1)%string with (t0 ++ String " " t1)%string.
    rewrite (split_app _ _ _ F0). now rewrite (split_without_sep _ _ F1). }
  rewrite (score_run _ _ _ _ _ n B S), (score_run _ _ _ _ _ n B S2).
  repeat split; auto.
  - destruct (classifier env text [t0; t1]) as [out|e]; auto.
    destruct (list_index (labels out) t0) as [i|]; auto.
    destruct (nth_error (scores out) i); auto.
  - intros s.
    destruct (classifier env text [t0; t1]) as [out|e]; [|discriminate].
    destruct (list_index (labels out) t0) as [i|] eqn:I; [|discriminate].
    destruct (nth_error (scores out) i) as [s'|] eqn:N; [|discriminate].
    intros [= <-]. exists out, i. repeat split; auto.
    now apply list_index_nth.
Qed.

(** ** Runs that never raise, when every print returns *)

Ltac run :=
  unfold bind, try_except, call, call_net, lift, print, emit, ret, raise.

Lemma ret_returns {A} (a : A) : returns (ret a).
Proof. intros n. now exists a, n, []. Qed.

Lemma print_returns d : returns (print d).
Proof. intros n. now exists tt, n, [Ev_print d]. Qed.

Lemma bind_returns {A B} (m : M A) (k : A -> M B) :
  returns m -> (forall a, returns (k a)) -> returns (bind m k).
Proof.
  intros Hm Hk n. unfold bind.
  destruct (Hm n) as (a & n1 & ev1 & ->).
  destruct (Hk a n1) as (b & n2 & ev2 & ->).
  now exists b, n2, (ev1 ++ ev2).
Qed.

Lemma try_except_returns {A} (m : M A) (h : exn -> M A) :
  (forall e, returns (h e)) -> returns (try_except m h).
Proof.
  intros Hh n. unfold try_except.
  destruct (m n) as [[[a|e] n1] ev1].
  - now exists a, n1, ev1.
  - destruct (Hh e n1) as (b & n2 & ev2 & ->).
    now exists b, n2, (ev1 ++ ev2).
Qed.

Lemma bind_Return {A B} (m : M A) (k : A -> M B) n a n1 ev1 :
  m n = (Return a, n1, ev1) ->
  bind m k n = match k a n1 with (r, n2, ev2) => (r, n2, ev1 ++ ev2) end.
Proof. intros H. unfold bind. now rewrite H. Qed.


(** ** The crawl-permission gate *)

Lemma can_crawl_returns url : returns (can_crawl url).
Proof.
  unfold can_crawl.
  destruct (ROBOTS_PARSER_AVAILABLE env); cbn [negb]; [|apply ret_returns].
  destruct (truthy (registered_domain env url)); cbn [negb];
    [|apply ret_returns].
  apply try_except_returns. intros e. apply ret_returns.
Qed.

Lemma can_crawl_false url n n' ev :
  can_crawl url n = (Return false, n', ev) -> policy_forbids url n.
Proof.
  unfold can_crawl, policy_forbids, robots_url_of.
  destruct (ROBOTS_PARSER_AVAILABLE env); cbn [negb]; [|run; congruence].
  destruct (truthy (registered_domain env url)); cbn [negb];
    [|run; congruence].
  run.
  destruct (requests_get env _ [] 15%Z false n) as [[resp|e] n1];
    [|congruence].
  destruct (status_code resp =? 200)%Z eqn:E; [|congruence].
  apply Z.eqb_eq in E.
  destruct (text resp) as [body|e] eqn:T; [|congruence].
  destruct (robots_is_allowed env body "*" url) as [[]|e] eqn:R;
    try congruence.
  intros _. repeat split; auto. now exists resp, n1, body.
Qed.

Lemma policy_forbids_false url n :
  policy_forbids url n ->
  exists n', can_crawl url n
             = (Return false, n', [Ev_requests_get (robots_url_of url) 15]).
Proof.
  intros (A & D & resp & n1 & body & G & S & T & R).
  unfold can_crawl. rewrite A, D. cbn [negb]. run.
  fold (robots_url_of url). rewrite G.
  apply Z.eqb_eq in S. rewrite S, T, R. now exists n1.
Qed.

(** C6. The gate never raises, and it answers false only when the policy
    of the domain was fetched with status 200 and forbids the wildcard
    agent to fetch the url: it answers true when the parser is
    unavailable, when the domain cannot be determined, when the request for
    the policy raises (time-out, network error), and when its status is not
    200. *)
Theorem can_crawl_fails_open url n :
  exists b n' ev,
    can_crawl url n = (Return b, n', ev)
    /\ (b = false <-> policy_forbids url n)
    /\ (ROBOTS_PARSER_AVAILABLE env = false -> b = true)
    /\ (registered_domain env url = EmptyString -> b = true)
    /\ (forall e n1,
          requests_get env (robots_url_of url) [] 15 false n = (Raise e, n1) ->
          b = true)
    /\ (forall resp n1,
          requests_get env (robots_url_of url) [] 15 false n
          = (Return resp, n1) ->
          status_code resp <> 200%Z -> b = true).
Proof.
  destruct (can_crawl_returns url n) as (b & n' & ev & C).
  exists b, n', ev. split; auto.
  assert (I : b = false <-> policy_forbids url n).
  { split.
    - intros ->. eapply can_crawl_false; eauto.
    - intros P. destruct (policy_forbids_false _ _ P) as (n2 & C2).
      congruence. }
  split; auto.
  assert (T : ~ policy_forbids url n -> b = true).
  { intros N. destruct b; auto. exfalso. now apply N, I. }
  repeat split.
  - intros A. apply T. intros (A' & _). congruence.
  - intros D. apply T. intros (_ & D' & _). rewrite D in D'. discriminate.
  - intros e n1 G. apply T.
    intros (_ & _ & resp & n2 & body & G' & _). congruence.
  - intros resp n1 G S. apply T.
    intros (_ & _ & resp' & n2 & body & G' & S' & _).
    rewrite G in G'. injection G' as <- _. contradiction.
Qed.

(** ** What a run emits *)

Lemma emits_ret {A} P (a : A) : emits P (ret a).
Proof. intros n. reflexivity. Qed.

Lemma emits_raise {A} P e : emits P (@raise A e).
Proof. intros n. reflexivity. Qed.

Lemma emits_lift {A} P (r : result A) : emits P (lift r).
Proof. intros n. reflexivity. Qed.

Lemma emits_call {A} (P : event -> bool) e (r : result A) :
  P e = true -> emits P (call e r).
Proof. intros H n. unfold call, events_of. simpl. now rewrite H. Qed.

Lemma emits_call_net {A} (P : event -> bool) e
    (f : Net env -> result A * Net env) :
  P e = true -> emits P (call_net e f).
Proof.
  intros H n. unfold call_net, events_of. destruct (f n). simpl.
  now rewrite H.
Qed.

Lemma emits_print (P : event -> bool) d :
  P (Ev_print d) = true -> emits P (print d).
Proof. intros H n. unfold print, emit, events_of. simpl. now rewrite H. Qed.

Lemma emits_bind {A B} P (m : M A) (k : A -> M B) :
  emits P m -> (forall a, emits P (k a)) -> emits P (bind m k).
Proof.
  intros Hm Hk n. specialize (Hm n). unfold bind, events_of in *.
  destruct (m n) as [[[a|e] n1] ev1]; simpl in *; auto.
  specialize (Hk a n1). unfold events_of in Hk.
  destruct (k a n1) as [[r n2] ev2]. simpl in *.
  rewrite forallb_app. now rewrite Hm, Hk.
Qed.

Lemma emits_try_except {A} P (m : M A) (h : exn -> M A) :
  emits P m -> (forall e, emits P (h e)) -> emits P (try_except m h).
Proof.
  intros Hm Hh n. specialize (Hm n). unfold try_except, events_of in *.
  destruct (m n) as [[[a|e] n1] ev1]; simpl in *; auto.
  specialize (Hh e n1). unfold events_of in Hh.
  destruct (h e n1) as [[r n2] ev2]. simpl in *.
  rewrite forallb_app. now rewrite Hm, Hh.
Qed.

(** ** The extractors *)

Lemma piece_settled p : piece p -> settled p.
Proof. intros [N _]. unfold settled. now rewrite normalized_strip. Qed.

Lemma normalize_settled s : settled (normalize s).
Proof.
  unfold settled. now rewrite (normalized_strip _ (normalize_normalized s)).
Qed.

Lemma empty_settled : settled EmptyString.
Proof. reflexivity. Qed.

Lemma piece_first p : piece p -> exists c, first_char p = Some c /\ isspace c = false.
Proof.
  intros [(_ & F & _) T]. destruct p as [|c p]; [discriminate|].
  exists c. split; auto. simpl in F. now apply negb_true_iff in F.
Qed.

(** Pieces joined by line feeds make a settled text. *)
Lemma join_pieces_settled l : Forall piece l -> settled (join newline l).
Proof.
  intros F. destruct l as [|p l]; [reflexivity|].
  inversion F as [|? ? Hp _]; subst.
  destruct (piece_first _ Hp) as (c & Fc & Sc).
  destruct Hp as [_ T].
  unfold settled.
  rewrite (strip_nonempty _ c); auto.
  - destruct p; [discriminate|]. destruct l; reflexivity.
  - now rewrite first_char_join.
Qed.

Lemma parse_pdf_with_pdfplumber_run b n :
  parse_pdf_with_pdfplumber b n
  = match pdfplumber_pages env b with
    | Return pages =>
        (Return (normalize (join newline (text_pages_of pages))), n,
         [Ev_pdfplumber b])
    | Raise e =>
        (Return EmptyString, n,
         [Ev_pdfplumber b; Ev_print (D_pdfplumber_failed e)])
    end.
Proof.
  unfold parse_pdf_with_pdfplumber. run.
  destruct (pdfplumber_pages env b); reflexivity.
Qed.

Lemma parse_image_with_ocr_run b n :
  parse_image_with_ocr b n
  = match Image_open env b with
    | Return img =>
        match image_to_string env img "chi_tra" with
        | Return text =>
            (Return (normalize text), n,
             [Ev_Image_open b; Ev_image_to_string])
        | Raise e =>
            (Return EmptyString, n,
             [Ev_Image_open b; Ev_image_to_string;
              Ev_print (D_image_ocr_failed e)])
        end
    | Raise e =>
        (Return EmptyString, n,
         [Ev_Image_open b; Ev_print (D_image_ocr_failed e)])
    end.
Proof.
  unfold parse_image_with_ocr. run.
  destruct (Image_open env b) as [img|e]; auto.
  destruct (image_to_string env img "chi_tra"); reflexivity.
Qed.

Lemma parse_html_run html n :
  parse_html html n
  = match soup_get_text env html with
    | Return text => (Return (normalize text), n, [Ev_BeautifulSoup html])
    | Raise e => (Raise e, n, [Ev_BeautifulSoup html])
    end.
Proof.
  unfold parse_html. run. destruct (soup_get_text env html); reflexivity.
Qed.

(** With prints that return, the page loop never raises, leaves the
    network alone, and appends
    pieces only. *)
Lemma parse_pdf_with_ocr_loop_run images :
  forall ocr_texts n,
    exists new ev,
      parse_pdf_with_ocr_loop images ocr_texts n
      = (Return (ocr_texts ++ new), n, ev)
      /\ Forall piece new
      /\ length new <= length images.
Proof.
  induction images as [|img images IH]; intros acc n.
  - exists [], []. cbn. rewrite app_nil_r. repeat split; auto.
  - cbn [parse_pdf_with_ocr_loop]. run.
    destruct (image_to_string env img "chi_tra") as [text|e].
    + destruct (truthy (normalize text)) eqn:T.
      * destruct (IH (acc ++ [normalize text]) n) as (new & ev & -> & F & L).
        exists (normalize text :: new), (Ev_image_to_string :: ev).
        rewrite <- app_assoc. repeat split; auto.
        -- constructor; auto. split; auto. apply normalize_normalized.
        -- simpl. lia.
      * destruct (IH acc n) as (new & ev & -> & F & L).
        exists new, (Ev_image_to_string :: ev). repeat split; auto.
        simpl. lia.
    + destruct (IH acc n) as (new & ev & -> & F & L).
      exists new, (Ev_image_to_string :: Ev_print (D_ocr_failed e) :: ev).
      repeat split; auto. simpl. lia.
Qed.

(** With prints that return, the OCR extractor never raises and leaves
    the network alone; its first
    event is the rasterization of the bytes it was given; its text is made
    of pieces joined by line feeds. *)
Lemma parse_pdf_with_ocr_run b n :
  exists pieces ev,
    parse_pdf_with_ocr b n
    = (Return (join newline pieces), n, Ev_convert_from_bytes b :: ev)
    /\ Forall piece pieces.
Proof.
  unfold parse_pdf_with_ocr. run.
  destruct (convert_from_bytes env b 300) as [images|e].
  - destruct (parse_pdf_with_ocr_loop_run images [] n)
      as (new & ev & -> & F & _).
    exists new, (ev ++ []). split; auto.
  - exists [], [Ev_print (D_pdf_to_image_failed e)]. split; auto.
Qed.

Lemma parse_pdf_with_ocr_settled b n :
  exists t ev,
    parse_pdf_with_ocr b n = (Return t, n, Ev_convert_from_bytes b :: ev)
    /\ settled t.
Proof.
  destruct (parse_pdf_with_ocr_run b n) as (pieces & ev & E & F).
  exists (join newline pieces), ev. split; auto.
  now apply join_pieces_settled.
Qed.

Lemma parse_pdf_with_ocr_failed b n e :
  convert_from_bytes env b 300 = Raise e ->
  parse_pdf_with_ocr b n
  = (Return EmptyString, n,
     [Ev_convert_from_bytes b; Ev_print (D_pdf_to_image_failed e)]).
Proof. intros H. unfold parse_pdf_with_ocr. run. now rewrite H. Qed.

Lemma parse_pdf_with_ocr_loop_local images :
  forall ocr_texts, emits is_local (parse_pdf_with_ocr_loop images ocr_texts).
Proof.
  induction images as [|img images IH]; intros acc.
  - apply emits_ret.
  - cbn [parse_pdf_with_ocr_loop]. apply emits_bind; [|intros; apply IH].
    apply emits_try_except.
    + apply emits_bind; [now apply emits_call|].
      intros text. destruct (truthy (normalize text)); apply emits_ret.
    + intros e. apply emits_bind; [now apply emits_print|].
      intros _. apply emits_ret.
Qed.

Lemma parse_pdf_with_ocr_local b : emits is_local (parse_pdf_with_ocr b).
Proof.
  unfold parse_pdf_with_ocr. apply emits_bind.
  - apply emits_try_except.
    + apply emits_bind; [now apply emits_call|]. intros; apply emits_ret.
    + intros e. apply emits_bind; [now apply emits_print|].
      intros _. apply emits_ret.
  - intros [images|]; [|apply emits_ret].
    apply emits_bind; [apply parse_pdf_with_ocr_loop_local|].
    intros; apply emits_ret.
Qed.

(** ** The fetcher *)

Lemma fetch_handler_run url e n :
  (if is_RequestException e
   then bind (print (D_connect_failed url e)) (fun _ => ret EmptyString)
   else bind (print (D_cannot_fetch url e)) (fun _ => ret EmptyString)) n
  = (Return EmptyString, n, [Ev_print (fetch_diagnostic url e)]).
Proof. unfold fetch_diagnostic. destruct (is_RequestException e); reflexivity. Qed.

Ltac same_request :=
  match goal with
  | G : requests_get _ ?u ?h ?t ?s ?n = _,
    G' : requests_get _ ?u ?h ?t ?s ?n = _ |- _ =>
      rewrite G in G'; injection G' as; subst
  end.

Ltac merge_facts :=
  repeat match goal with
    | H : ?l = ?r, H' : ?l = ?r |- _ => clear H'
    | H : ?l = _, H' : ?l = _ |- _ =>
        rewrite H in H';
        first [discriminate H' | injection H' as; subst | clear H']
    end.

Ltac no_failure :=
  let d := fresh "d" in
  let F := fresh "F" in
  intros d F; inversion F; subst; clear F;
  try same_request; merge_facts; try congruence;
  try (split; [reflexivity | cbn; auto 10]).

(** One fetch, whatever the network and the libraries do, when every
    print returns: a text is returned, never an exception; the request is
    the first event; the text is settled; and a failure gives the empty
    text and its diagnostic. *)
Lemma fetch_full_text_requests_run url timeout n :
  exists t n' ev,
    fetch_full_text_requests url timeout n
    = (Return t, n', Ev_requests_get url timeout :: ev)
    /\ settled t
    /\ forallb is_local ev = true
    /\ forall d, fetch_failure url timeout n d ->
                 t = EmptyString /\ In (Ev_print d) ev.
Proof.
  unfold fetch_full_text_requests, try_except.
  unfold bind at 1. unfold call_net at 1. fold fetch_headers.
  destruct (requests_get env url fetch_headers timeout true n)
    as [[resp|e] n1] eqn:G.
  2:{ rewrite fetch_handler_run. do 3 eexists. split; [reflexivity|].
      split; [apply empty_settled|]. split; [reflexivity|]. no_failure. }
  destruct (status_code resp =? 200)%Z eqn:S; cbn [negb].
  2:{ apply Z.eqb_neq in S. run. cbn.
      do 3 eexists. split; [reflexivity|].
      split; [apply empty_settled|]. split; [reflexivity|]. no_failure. }
  apply Z.eqb_eq in S.
  unfold bind at 1. unfold lift at 1.
  destruct (content resp) as [b|e] eqn:C.
  2:{ rewrite fetch_handler_run. do 3 eexists. split; [reflexivity|].
      split; [apply empty_settled|]. split; [reflexivity|]. no_failure. }
  destruct (classify (content_type_of resp) url) eqn:K.
  - (* PDF *)
    unfold bind at 1. rewrite parse_pdf_with_pdfplumber_run.
    destruct (pdfplumber_pages env b) as [pages|e1] eqn:P.
    + pose proof (normalize_settled (join newline (text_pages_of pages))) as St.
      unfold settled in St.
      destruct (truthy (strip (normalize (join newline (text_pages_of pages)))))
        eqn:T; cbn [negb].
      * run. cbn. do 3 eexists. split; [reflexivity|].
        split; [apply normalize_settled|]. split; [reflexivity|]. no_failure.
      * unfold bind at 1. unfold print, emit.
        pose proof (parse_pdf_with_ocr_local b n1) as L.
        destruct (parse_pdf_with_ocr_settled b n1) as (t & ev & E & Ht).
        rewrite E in L |- *. unfold events_of in L. cbn in L |- *.
        do 3 eexists. split; [reflexivity|]. split; [exact Ht|].
        split; [exact L|]. no_failure.
    + cbn [strip lstrip rstrip truthy negb].
      unfold bind at 1. unfold print, emit.
      destruct (convert_from_bytes env b 300) as [images|e2] eqn:V.
      * pose proof (parse_pdf_with_ocr_local b n1) as L.
        destruct (parse_pdf_with_ocr_settled b n1) as (t & ev & E & Ht).
        rewrite E in L |- *. unfold events_of in L. cbn in L |- *.
        do 3 eexists. split; [reflexivity|]. split; [exact Ht|].
        split; [exact L|]. no_failure.
      * rewrite (parse_pdf_with_ocr_failed _ _ _ V). cbn.
        do 3 eexists. split; [reflexivity|].
        split; [apply empty_settled|]. split; [reflexivity|]. no_failure.
  - (* IMAGE *)
    rewrite parse_image_with_ocr_run.
    destruct (Image_open env b) as [img|e1] eqn:I.
    + destruct (image_to_string env img "chi_tra") as [text|e2] eqn:O.
      * cbn. do 3 eexists. split; [reflexivity|].
        split; [apply normalize_settled|]. split; [reflexivity|]. no_failure.
      * cbn. do 3 eexists. split; [reflexivity|].
        split; [apply empty_settled|]. split; [reflexivity|]. no_failure.
    + cbn. do 3 eexists. split; [reflexivity|].
      split; [apply empty_settled|]. split; [reflexivity|]. no_failure.
  - (* HTML *)
    unfold bind at 1. unfold lift at 1.
    destruct (text resp) as [html|e1] eqn:X.
    + rewrite parse_html_run.
      destruct (soup_get_text env html) as [text|e2] eqn:B.
      * cbn. do 3 eexists. split; [reflexivity|].
        split; [apply normalize_settled|]. split; [reflexivity|]. no_failure.
      * rewrite fetch_handler_run. cbn. do 3 eexists. split; [reflexivity|].
        split; [apply empty_settled|]. split; [reflexivity|]. no_failure.
    + rewrite fetch_handler_run. cbn. do 3 eexists. split; [reflexivity|].
      split; [apply empty_settled|]. split; [reflexivity|]. no_failure.
  - (* UNKNOWN *)
    run. cbn. do 3 eexists. split; [reflexivity|].
    split; [apply empty_settled|]. split; [reflexivity|]. no_failure.
Qed.



(** ** The gated fetch *)

Lemma can_crawl_no_classifier url : emits not_classifier (can_crawl url).
Proof.
  unfold can_crawl.
  destruct (ROBOTS_PARSER_AVAILABLE env); cbn [negb]; [|apply emits_ret].
  destruct (truthy (registered_domain env url)); cbn [negb];
    [|apply emits_ret].
  apply emits_try_except; [|intros; apply emits_ret].
  apply emits_bind; [now apply emits_call_net|].
  intros resp. destruct (status_code resp =? 200)%Z; [|apply emits_ret].
  apply emits_bind; [apply emits_lift|]. intros; apply emits_lift.
Qed.

Lemma is_local_not_classifier ev :
  forallb is_local ev = true -> forallb not_classifier ev = true.
Proof.
  induction ev as [|e ev IH]; simpl; auto.
  intros H. apply andb_true_iff in H as [H1 H2].
  unfold is_local in H1. apply andb_true_iff in H1 as [_ H1].
  unfold not_classifier at 1. now rewrite H1, IH.
Qed.

(** When every print returns, the gated fetch never raises; its text is
    settled; it does not call the classifier; and a text that is not empty
    was requested from the url. *)
Lemma fetch_full_text_run url timeout n :
  exists t n' ev,
    fetch_full_text url timeout n = (Return t, n', ev)
    /\ settled t
    /\ forallb not_classifier ev = true
    /\ (truthy t = true -> In (Ev_requests_get url timeout) ev).
Proof.
  unfold fetch_full_text, bind.
  pose proof (can_crawl_no_classifier url n) as L.
  destruct (can_crawl_returns url n) as (b & n1 & ev1 & C).
  rewrite C in L |- *. unfold events_of in L. cbn in L.
  destruct b; cbn [negb USE_SELENIUM].
  - destruct (fetch_full_text_requests_run url timeout n1)
      as (t & n2 & ev2 & -> & St & Lo & _).
    exists t, n2, (ev1 ++ Ev_requests_get url timeout :: ev2).
    repeat split; auto.
    + rewrite forallb_app, L. cbn. now apply is_local_not_classifier.
    + intros _. apply in_or_app. right. now left.
  - run. cbn. do 3 eexists. split; [reflexivity|].
    split; [apply empty_settled|]. split.
    + rewrite forallb_app, L. reflexivity.
    + discriminate.
Qed.

(** A url that the gate denies is not requested and gives the empty text;
    a url that it allows gives what the fetcher returns. *)
Lemma fetch_full_text_denied url timeout n n1 ev :
  can_crawl url n = (Return false, n1, ev) ->
  fetch_full_text url timeout n
  = (Return EmptyString, n1, ev ++ [Ev_print (D_robots_disallowed url)]).
Proof.
  intros C. unfold fetch_full_text.
  rewrite (bind_Return _ _ _ _ _ _ C). reflexivity.
Qed.

Lemma fetch_full_text_allowed url timeout n n1 ev :
  can_crawl url n = (Return true, n1, ev) ->
  fetch_full_text url timeout n
  = match fetch_full_text_requests url timeout n1 with
    | (r, n2, ev2) => (r, n2, ev ++ ev2)
    end.
Proof.
  intros C. unfold fetch_full_text.
  rewrite (bind_Return _ _ _ _ _ _ C). reflexivity.
Qed.

Lemma settled_truthy t :
  settled t -> truthy t = true -> all_space t = false.
Proof.
  unfold settled. intros S T. destruct (all_space t) eqn:B; auto.
  apply strip_empty_iff in B. congruence.
Qed.

Lemma score_net text binary_labels n r n' ev :
  get_relate_domain_score text binary_labels n = (r, n', ev) -> n' = n.
Proof.
  unfold get_relate_domain_score.
  destruct (negb (truthy (strip text))); [run; congruence|].
  destruct (split " " binary_labels) as [|t0 [|t1 rest]];
    try (run; congruence).
  run. destruct (classifier env text [t0; t1]) as [out|e]; [|congruence].
  unfold index, getitem, ret, raise.
  destruct (list_index (labels out) t0) as [i|]; [|congruence].
  destruct (nth_error (scores out) i); congruence.
Qed.

(** ** The loop over the hits *)

Lemma fetched_step r raw n :
  fetched (r :: raw) n
  = (r, text_of (fetch_full_text (dict_get r "href" "") 10 n))
    :: fetched raw (net_of (fetch_full_text (dict_get r "href" "") 10 n)).
Proof. reflexivity. Qed.

(** Whenever the loop returns, it has appended one record for each
    surviving hit, in their order, and nothing else. *)
Lemma search_duckduckgo_loop_filter raw binary_labels :
  forall results n out n' ev,
    search_duckduckgo_loop raw binary_labels results n = (Return out, n', ev) ->
    exists new,
      out = results ++ new
      /\ map record_fields new = map hit_fields (survivors raw n).
Proof.
  induction raw as [|r raw IH]; intros acc n out n' ev.
  - cbn. intros [= <- _ _]. exists []. now rewrite app_nil_r.
  - cbn [search_duckduckgo_loop]. unfold survivors. rewrite fetched_step.
    unfold bind at 1.
    destruct (fetch_full_text_run (dict_get r "href" "") 10 n)
      as (t & n1 & ev1 & F & St & _).
    rewrite F. unfold text_of, result_of, net_of. cbn [fst snd filter].
    destruct (truthy t) eqn:T; cbn [negb].
    + unfold bind at 1.
      destruct (get_relate_domain_score t binary_labels n1)
        as [[[s|e] n2] ev2] eqn:G; [|discriminate].
      apply score_net in G. subst n2.
      destruct (search_duckduckgo_loop raw binary_labels _ n1)
        as [[res n3] ev3] eqn:L.
      intros [= -> <- <-].
      destruct (IH _ _ _ _ _ L) as (new & -> & M).
      eexists. rewrite <- app_assoc. split; [reflexivity|].
      cbn [map app]. unfold survivors in M. now rewrite M.
    + unfold bind at 1. unfold print, emit.
      destruct (search_duckduckgo_loop raw binary_labels acc n1)
        as [[res n3] ev3] eqn:L.
      intros [= -> <- <-].
      exact (IH _ _ _ _ _ L).
Qed.

(** With at least two labels and a classifier that answers with a
    probability for each label, the loop returns. *)
Lemma search_duckduckgo_loop_returns (O : probability_oracle)
    raw binary_labels :
  2 <= length (split " " binary_labels) ->
  forall results, returns (search_duckduckgo_loop raw binary_labels results).
Proof.
  intros L2. induction raw as [|r raw IH]; intros acc n.
  - now exists acc, n, [].
  - cbn [search_duckduckgo_loop]. unfold bind at 1.
    destruct (fetch_full_text_run (dict_get r "href" "") 10 n)
      as (t & n1 & ev1 & -> & _).
    destruct (truthy t); cbn [negb].
    + unfold bind at 1.
      destruct (score_returns O t binary_labels n1 L2) as (s & ev2 & -> & _).
      match goal with
      | |- context [search_duckduckgo_loop raw binary_labels ?a n1] =>
          destruct (IH a n1) as (out & n3 & ev3 & ->)
      end.
      now do 3 eexists.
    + unfold bind at 1. unfold print, emit.
      destruct (IH acc n1) as (out & n3 & ev3 & ->).
      now do 3 eexists.
Qed.

Lemma survivors_length raw : forall n, length (survivors raw n) <= length raw.
Proof.
  unfold survivors.
  induction raw as [|r raw IH]; intros n; cbn [fetched filter]; auto.
  destruct (truthy _); cbn [length]; specialize (IH (net_of
    (fetch_full_text (dict_get r "href" "") 10 n))); lia.
Qed.

Lemma survivors_truthy raw n :
  Forall (fun p => truthy (snd p) = true) (survivors raw n).
Proof.
  unfold survivors. apply Forall_forall. intros p H.
  now apply filter_In in H.
Qed.

Lemma records_not_empty out :
  forall sv,
    map record_fields out = map hit_fields sv ->
    Forall (fun p => truthy (snd p) = true) sv ->
    Forall (fun r => full_text r <> EmptyString) out.
Proof.
  induction out as [|r out IH]; intros [|p sv]; cbn [map];
    try discriminate; auto.
  intros [= _ _ _ E M] F. inversion F as [|? ? T F']; subst.
  constructor; [|now apply (IH sv)].
  rewrite E. destruct (snd p); [discriminate|congruence].
Qed.

(** C1. The pipeline run is a stable filter of the hits that the search
    returned: whenever it returns, its records are, in the order of the
    hits, those of exactly the hits whose gated fetch returned a text that
    is not empty (a hit that the gate denies or whose fetch gives the empty
    text leaves no record), so that there are at most as many records as
    hits and no record has an empty [full_text]; and it does return when
    the label string holds two labels and the classifier answers with a
    probability for each label. *)
Theorem pipeline_is_stable_filter query binary_labels max_results n raw n1 :
  ddgs_text env query max_results n = (Return raw, n1) ->
  (forall out n' ev,
      search_duckduckgo query binary_labels max_results n
      = (Return out, n', ev) ->
      map record_fields out = map hit_fields (survivors raw n1)
      /\ length out <= length raw
      /\ Forall (fun r => full_text r <> EmptyString) out)
  /\ (probability_oracle ->
      2 <= length (split " " binary_labels) ->
      exists out n' ev,
        search_duckduckgo query binary_labels max_results n
        = (Return out, n', ev)).
Proof.
  intros D. unfold search_duckduckgo, bind, call_net. rewrite D. split.
  - intros out n' ev.
    destruct (search_duckduckgo_loop raw binary_labels [] n1)
      as [[res n2] ev2] eqn:L.
    intros [= -> <- <-].
    destruct (search_duckduckgo_loop_filter _ _ _ _ _ _ _ L) as (new & -> & M).
    cbn [app]. split; auto. split.
    + rewrite <- (length_map record_fields), M, length_map.
      apply survivors_length.
    + eapply records_not_empty; eauto. apply survivors_truthy.
  - intros O L2.
    destruct (search_duckduckgo_loop_returns O raw binary_labels L2 [] n1)
      as (out & n2 & ev2 & ->).
    now do 3 eexists.
Qed.



(** ** The format dispatch against its specification *)

Lemma classify_decision_order content_type url :
  classify content_type url
  = if contains "pdf" content_type || endswith (lower url) ".pdf" then PDF
    else if contains "image" content_type
            || (ends_in_image_suffix (lower url)
                || ends_in_image_suffix_newline (lower url))
    then IMAGE
    else if contains "html" content_type then HTML
    else UNKNOWN.
Proof. unfold classify. now rewrite re_search_image_suffix. Qed.

(** The url counts only through its lower-case form. *)
Lemma classify_case_insensitive content_type url1 url2 :
  lower url1 = lower url2 ->
  classify content_type url1 = classify content_type url2.
Proof. intros H. unfold classify. now rewrite H. Qed.

Lemma last_char_app s c t :
  last_char (s ++ String c t)%string = last_char (String c t).
Proof.
  induction s as [|d s IH]; auto.
  cbn [append]. change (last_char (String d (s ++ String c t)%string))
    with (match (s ++ String c t)%string with
          | EmptyString => Some d
          | String _ _ => last_char (s ++ String c t)%string
          end).
  rewrite IH. destruct s; reflexivity.
Qed.

Lemma last_char_lower s :
  last_char (lower s) = option_map lower_char (last_char s).
Proof.
  induction s as [|c s IH]; auto.
  destruct s as [|d s]; auto.
Qed.

Lemma lower_char_LF c : lower_char c = LF -> c = LF.
Proof.
  destruct c as [[] [] [] [] [] [] [] []]; intros H;
    first [reflexivity | discriminate H].
Qed.

Lemma endswith_newline_last s suf :
  endswith s (suf ++ newline)%string = true -> last_char s = Some LF.
Proof.
  intros H. apply endswith_app in H as [p ->].
  destruct suf as [|c suf].
  - cbn [append]. unfold newline. now rewrite last_char_app.
  - cbn [append]. rewrite last_char_app.
    change (String c (suf ++ newline)%string)
      with (String c suf ++ String LF EmptyString)%string.
    now rewrite last_char_app.
Qed.

Lemma no_newline_suffix url :
  last_char url <> Some LF -> ends_in_image_suffix_newline (lower url) = false.
Proof.
  intros H.
  destruct (ends_in_image_suffix_newline (lower url)) eqn:E; auto.
  unfold ends_in_image_suffix_newline in E.
  apply existsb_exists in E as (suf & _ & E).
  apply endswith_newline_last in E. rewrite last_char_lower in E.
  destruct (last_char url) as [c|]; [|discriminate].
  injection E as E. apply lower_char_LF in E. congruence.
Qed.

(** On every url that does not end in a line feed, the dispatch is the one
    of the specification. *)
Lemma classify_meets_spec content_type url :
  last_char url <> Some LF ->
  classify content_type url = classify_spec content_type url.
Proof.
  intros H. rewrite classify_decision_order. unfold classify_spec.
  now rewrite (no_newline_suffix _ H), orb_false_r.
Qed.

(** ** Normalization of the extracted texts *)

Lemma empty_normalized : normalized EmptyString.
Proof. repeat split. Qed.

Lemma single_spaced_newline a b :
  single_spaced (a ++ String LF b)%string = false.
Proof.
  induction a as [|c a IH].
  - reflexivity.
  - cbn [append single_spaced]. rewrite IH. apply andb_false_r.
Qed.

(** Two texts or more joined by line feeds are not normalized. *)
Lemma join_two_not_normalized p q l : ~ normalized (join newline (p :: q :: l)).
Proof.
  intros (S & _).
  change (join newline (p :: q :: l))
    with (p ++ String LF (join newline (q :: l)))%string in S.
  rewrite single_spaced_newline in S. discriminate.
Qed.

(** The HTML, text-layer and image extractors return normalized texts. *)
Lemma parse_html_normalized html n t n' ev :
  parse_html html n = (Return t, n', ev) -> normalized t.
Proof.
  rewrite parse_html_run. destruct (soup_get_text env html); [|discriminate].
  intros [= <- _ _]. apply normalize_normalized.
Qed.

Lemma parse_pdf_with_pdfplumber_normalized b n t n' ev :
  parse_pdf_with_pdfplumber b n = (Return t, n', ev) -> normalized t.
Proof.
  rewrite parse_pdf_with_pdfplumber_run.
  destruct (pdfplumber_pages env b); intros [= <- _ _].
  - apply normalize_normalized.
  - apply empty_normalized.
Qed.

Lemma parse_image_with_ocr_normalized b n t n' ev :
  parse_image_with_ocr b n = (Return t, n', ev) -> normalized t.
Proof.
  rewrite parse_image_with_ocr_run.
  destruct (Image_open env b) as [img|e].
  - destruct (image_to_string env img "chi_tra"); intros [= <- _ _].
    + apply normalize_normalized.
    + apply empty_normalized.
  - intros [= <- _ _]. apply empty_normalized.
Qed.

(** The OCR extractor of PDF documents returns the texts of the pages that
    have one, each normalized, joined by line feeds: a normalized text
    exactly when at most one page has a text. *)
Lemma parse_pdf_with_ocr_normalized b n :
  exists pieces ev,
    parse_pdf_with_ocr b n
    = (Return (join newline pieces), n, Ev_convert_from_bytes b :: ev)
    /\ Forall piece pieces
    /\ (normalized (join newline pieces) <-> length pieces <= 1).
Proof.
  destruct (parse_pdf_with_ocr_run b n) as (pieces & ev & E & F).
  exists pieces, ev. split; auto. split; auto.
  destruct pieces as [|p [|q l]].
  - split; [cbn; lia|]. intros _. apply empty_normalized.
  - split; [cbn; lia|]. intros _. inversion F as [|? ? [N _] _]. exact N.
  - split.
    + intros N. now apply join_two_not_normalized in N.
    + cbn. lia.
Qed.


(** ** Normalization, word by word *)

Lemma join_cons_char sep c w ws :
  join sep (String c w :: ws) = String c (join sep (w :: ws)).
Proof. destruct ws; reflexivity. Qed.

Lemma words_cons_visible c s :
  isspace c = false -> exists w ws, words (String c s) = String c w :: ws.
Proof.
  intros E. cbn [words]. rewrite E.
  destruct (not_space (first_char s)).
  - destruct (words s) as [|w ws]; eauto.
  - eauto.
Qed.

Lemma words_first s :
  not_space (first_char s) = true -> truthy s = true ->
  exists c w ws, words s = String c w :: ws.
Proof.
  destruct s as [|c s]; [discriminate|]. cbn [first_char not_space].
  intros E _. apply negb_true_iff in E.
  destruct (words_cons_visible c s E) as (w & ws & ->). eauto.
Qed.

Lemma words_truthy s : Forall (fun w => truthy w = true) (words s).
Proof.
  induction s as [|c s IH]; cbn [words]; auto.
  destruct (isspace c); auto.
  destruct (not_space (first_char s)).
  - destruct (words s) as [|w ws]; auto.
    inversion IH; subst. constructor; auto.
  - constructor; auto.
Qed.

Lemma join_words_cons w ws :
  truthy w = true -> exists d r, join " " (w :: ws) = String d r.
Proof.
  destruct w as [|d w]; [discriminate|]. intros _.
  rewrite join_cons_char. eauto.
Qed.

(** The right-stripped replacement of the white-space runs of [s], begun
    inside a run or outside of one, in terms of the words of [s]. *)
Lemma rstrip_sub_ws_words s :
  rstrip (sub_ws_from true s) = join " " (words s)
  /\ rstrip (sub_ws_from false s)
     = if negb (not_space (first_char s)) && truthy (join " " (words s))
       then String " " (join " " (words s))
       else join " " (words s).
Proof.
  induction s as [|c s [IHt IHf]]; [split; reflexivity|].
  cbn [sub_ws_from words first_char not_space].
  destruct (isspace c) eqn:E; cbn [negb andb].
  - split; [exact IHt|].
    cbn [rstrip]. rewrite IHt.
    destruct (join " " (words s)); reflexivity.
  - assert (R : rstrip (String c (sub_ws_from false s))
                = join " "
                    (if not_space (first_char s)
                     then match words s with
                          | w :: ws => String c w :: ws
                          | [] => [String c EmptyString]
                          end
                     else String c EmptyString :: words s)).
    { cbn [rstrip]. rewrite IHf, E.
      pose proof (words_truthy s) as T.
      destruct (not_space (first_char s)); cbn [negb andb].
      - destruct (words s) as [|w ws]; [reflexivity|].
        inversion T as [|? ? Tw _]; subst.
        destruct (join_words_cons w ws Tw) as (d & r & J).
        rewrite join_cons_char, J. f_equal. symmetry. exact J.
      - destruct (words s) as [|w ws]; [reflexivity|].
        inversion T as [|? ? Tw _]; subst.
        destruct (join_words_cons w ws Tw) as (d & r & J).
        rewrite J. cbn [truthy].
        change (join " " (String c EmptyString :: w :: ws))
          with (String c (String " " (join " " (w :: ws)))).
        do 2 f_equal. symmetry. exact J. }
    split; exact R.
Qed.

Lemma sub_ws_fixed s :
  single_spaced s = true -> sub_ws_from false s = s.
Proof.
  induction s as [|c s IH]; auto.
  cbn [single_spaced sub_ws_from]. intros H.
  apply andb_true_iff in H as [H1 H2]. specialize (IH H2).
  destruct (isspace c) eqn:E; [|now rewrite IH].
  apply andb_true_iff in H1 as [H0 H1]. apply Ascii.eqb_eq in H0. subst c.
  f_equal. destruct s as [|d s]; auto.
  cbn [first_char not_space] in H1. apply negb_true_iff in H1.
  cbn [sub_ws_from] in IH |- *. rewrite H1 in IH |- *. exact IH.
Qed.

Lemma normalize_fixed s : normalized s -> normalize s = s.
Proof.
  intros N. unfold normalize, re_sub_ws.
  rewrite (sub_ws_fixed s (proj1 N)). now apply normalized_strip.
Qed.

Lemma visible_sub_ws s : forall b, visible (sub_ws_from b s) = visible s.
Proof.
  induction s as [|c s IH]; intros b; auto.
  cbn [sub_ws_from visible]. destruct (isspace c) eqn:E.
  - destruct b; [apply IH|]. cbn [visible].
    change (isspace " ") with true. cbn. apply IH.
  - cbn [visible]. now rewrite E, IH.
Qed.

Lemma visible_lstrip s : visible (lstrip s) = visible s.
Proof.
  induction s as [|c s IH]; auto.
  cbn [lstrip visible]. destruct (isspace c) eqn:E; auto.
  cbn [visible]. now rewrite E.
Qed.

Lemma visible_rstrip s : visible (rstrip s) = visible s.
Proof.
  induction s as [|c s IH]; auto.
  cbn [rstrip visible]. destruct (rstrip s) as [|d r] eqn:R.
  - destruct (isspace c) eqn:E; [exact IH|].
    cbn [visible]. now rewrite E, <- IH.
  - cbn [visible] in IH |- *. destruct (isspace c); now rewrite IH.
Qed.

Lemma words_app_space a c b :
  isspace c = true ->
  words (a ++ String c b)%string = words a ++ words b.
Proof.
  intros E. induction a as [|x a IH].
  - cbn. now rewrite E.
  - cbn [append words]. rewrite IH.
    destruct (isspace x) eqn:X; auto.
    destruct a as [|d a].
    + cbn [append first_char not_space words]. now rewrite E.
    + cbn [append first_char not_space].
      destruct (isspace d) eqn:D; cbn [negb]; auto.
      destruct (words_cons_visible d a D) as (w & ws & ->).
      reflexivity.
Qed.

Lemma words_join_newline l :
  words (join newline l) = flat_map words l.
Proof.
  induction l as [|p l IH]; auto.
  destruct l as [|q l].
  - cbn. now rewrite app_nil_r.
  - change (join newline (p :: q :: l))
      with (p ++ String LF (join newline (q :: l)))%string.
    rewrite words_app_space by reflexivity.
    now rewrite IH.
Qed.

Lemma words_text_pages pages :
  flat_map words (text_pages_of pages)
  = flat_map words (map page_text pages).
Proof.
  induction pages as [|[t|] pages IH]; cbn; auto.
  destruct t; cbn; auto. now rewrite IH.
Qed.

Lemma normalize_is_words_joined_aux s : normalize s = join " " (words s).
Proof.
  unfold normalize, strip, re_sub_ws.
  destruct s as [|c s]; auto.
  destruct (isspace c) eqn:E.
  - cbn [sub_ws_from words]. rewrite E. cbn [lstrip].
    change (isspace " ") with true. cbn iota.
    destruct (sub_ws_from_shape s true) as [_ F].
    rewrite (lstrip_id _ (F eq_refl)).
    apply rstrip_sub_ws_words.
  - rewrite lstrip_id
      by (cbn [sub_ws_from]; rewrite E; cbn; now rewrite E).
    destruct (rstrip_sub_ws_words (String c s)) as [_ ->].
    cbn [first_char not_space]. now rewrite E.
Qed.

(** X1. The idiom [re.sub(r"\s+", " ", text).strip()] returns the words of
    the text, in order, with one space between two of them. *)
Theorem normalize_is_words_joined s : normalize s = join " " (words s).
Proof. apply normalize_is_words_joined_aux. Qed.

(** X2. Normalizing twice is normalizing once, and the texts that
    normalization leaves as they are are exactly the normalized ones. *)
Theorem normalize_idempotent_fixed_points s :
  normalize (normalize s) = normalize s
  /\ (normalize s = s <-> normalized s).
Proof.
  split.
  - apply normalize_fixed, normalize_normalized.
  - split.
    + intros <-. apply normalize_normalized.
    + apply normalize_fixed.
Qed.

(** X3. Normalization removes and replaces white space only: the
    characters that are not white space are kept, in their order; and the
    result is empty exactly for the texts made of white space. *)
Theorem normalize_keeps_visible s :
  visible (normalize s) = visible s
  /\ truthy (normalize s) = negb (all_space s).
Proof.
  split.
  - unfold normalize, strip, re_sub_ws.
    now rewrite visible_rstrip, visible_lstrip, visible_sub_ws.
  - pose proof (normalize_settled s) as St. unfold settled in St.
    rewrite <- St.
    destruct (all_space s) eqn:B.
    + assert (V : visible s = EmptyString).
      { clear St. induction s as [|c s IH]; auto.
        cbn in B |- *. apply andb_true_iff in B as [B1 B2].
        rewrite B1. auto. }
      assert (N : visible (normalize s) = EmptyString).
      { unfold normalize, strip, re_sub_ws.
        now rewrite visible_rstrip, visible_lstrip, visible_sub_ws. }
      rewrite (normalized_strip _ (normalize_normalized s)).
      destruct (normalize s) as [|d r] eqn:Ns; auto.
      pose proof (normalize_normalized s) as (_ & F & _).
      rewrite Ns in F. cbn in F. apply negb_true_iff in F.
      cbn in N. rewrite F in N. discriminate.
    + destruct (truthy (strip (normalize s))) eqn:T; auto.
      apply strip_empty_iff in T.
      assert (V : forall t, all_space t = true -> visible t = EmptyString).
      { induction t as [|c t IH]; auto. cbn. intros H.
        apply andb_true_iff in H as [H1 H2]. rewrite H1. auto. }
      assert (V' : forall t, visible t = EmptyString -> all_space t = true).
      { induction t as [|c t IH]; auto. cbn.
        destruct (isspace c); [auto|discriminate]. }
      apply V in T.
      assert (N : visible (normalize s) = visible s).
      { unfold normalize, strip, re_sub_ws.
        now rewrite visible_rstrip, visible_lstrip, visible_sub_ws. }
      rewrite N in T. apply V' in T. congruence.
Qed.

(** ** The extractors, page by page *)

(** X4. When the document opens, the text-layer extractor returns the
    words of all its pages, in the order of the pages, with one space
    between two words: pages without text contribute nothing, and the
    network is left alone. *)
Theorem text_layer_is_words_of_pages b n pages :
  pdfplumber_pages env b = Return pages ->
  parse_pdf_with_pdfplumber b n
  = (Return (join " " (flat_map words (map page_text pages))), n,
     [Ev_pdfplumber b]).
Proof.
  intros P. rewrite parse_pdf_with_pdfplumber_run, P.
  rewrite normalize_is_words_joined_aux.
  now rewrite words_join_newline, words_text_pages.
Qed.



(** ** What the gate and the fetcher do to the outside world *)

Lemma keeps_net_ret {A} (a : A) : keeps_net (ret a).
Proof. intros n. reflexivity. Qed.

Lemma keeps_net_lift {A} (r : result A) : keeps_net (lift r).
Proof. intros n. reflexivity. Qed.

Lemma keeps_net_call {A} e (r : result A) : keeps_net (call e r).
Proof. intros n. reflexivity. Qed.

Lemma keeps_net_print d : keeps_net (print d).
Proof. intros n. reflexivity. Qed.

Lemma keeps_net_bind {A B} (m : M A) (k : A -> M B) :
  keeps_net m -> (forall a, keeps_net (k a)) -> keeps_net (bind m k).
Proof.
  intros Hm Hk n. specialize (Hm n). unfold bind, net_of in *.
  destruct (m n) as [[[a|e] n1] ev1]; cbn in *; auto.
  specialize (Hk a n1). unfold net_of in Hk.
  destruct (k a n1) as [[r n2] ev2]. cbn in *. congruence.
Qed.

Lemma keeps_net_try_except {A} (m : M A) (h : exn -> M A) :
  keeps_net m -> (forall e, keeps_net (h e)) -> keeps_net (try_except m h).
Proof.
  intros Hm Hh n. specialize (Hm n). unfold try_except, net_of in *.
  destruct (m n) as [[[a|e] n1] ev1]; cbn in *; auto.
  specialize (Hh e n1). unfold net_of in Hh.
  destruct (h e n1) as [[r n2] ev2]. cbn in *. congruence.
Qed.

Ltac local_run :=
  repeat first
    [ apply keeps_net_ret | apply keeps_net_lift | apply keeps_net_call
    | apply keeps_net_print
    | apply keeps_net_bind; [|intros ?]
    | apply keeps_net_try_except; [|intros ?]
    | apply emits_ret | apply emits_raise | apply emits_lift
    | apply emits_call; reflexivity
    | apply emits_call_net; reflexivity
    | apply emits_print; reflexivity
    | apply emits_bind; [|intros ?]
    | apply emits_try_except; [|intros ?] ].

Lemma parse_pdf_with_ocr_loop_keeps_net images :
  forall ocr_texts, keeps_net (parse_pdf_with_ocr_loop images ocr_texts).
Proof.
  induction images as [|img images IH]; intros acc;
    cbn [parse_pdf_with_ocr_loop]; local_run; auto.
  destruct (truthy (normalize a)); local_run.
Qed.

Lemma parse_pdf_with_ocr_loop_fetch_events images :
  forall ocr_texts,
    emits is_fetch_event (parse_pdf_with_ocr_loop images ocr_texts).
Proof.
  induction images as [|img images IH]; intros acc;
    cbn [parse_pdf_with_ocr_loop]; local_run; auto.
  destruct (truthy (normalize a)); local_run.
Qed.

Lemma parse_pdf_with_pdfplumber_footprint b :
  keeps_net (parse_pdf_with_pdfplumber b)
  /\ emits is_fetch_event (parse_pdf_with_pdfplumber b).
Proof. unfold parse_pdf_with_pdfplumber. split; local_run. Qed.

Lemma parse_pdf_with_ocr_footprint b :
  keeps_net (parse_pdf_with_ocr b)
  /\ emits is_fetch_event (parse_pdf_with_ocr b).
Proof.
  unfold parse_pdf_with_ocr. split.
  - apply keeps_net_bind; [local_run|].
    intros [images|]; local_run. apply parse_pdf_with_ocr_loop_keeps_net.
  - apply emits_bind; [local_run|].
    intros [images|]; local_run. apply parse_pdf_with_ocr_loop_fetch_events.
Qed.

Lemma parse_image_with_ocr_footprint b :
  keeps_net (parse_image_with_ocr b)
  /\ emits is_fetch_event (parse_image_with_ocr b).
Proof. unfold parse_image_with_ocr. split; local_run. Qed.

Lemma parse_html_footprint html :
  keeps_net (parse_html html) /\ emits is_fetch_event (parse_html html).
Proof. unfold parse_html. split; local_run. Qed.

(** After the request, nothing that the fetcher does touches the network,
    and all it emits are events of a fetch. *)
Lemma fetch_full_text_requests_footprint url timeout n :
  net_of (fetch_full_text_requests url timeout n)
  = snd (requests_get env url fetch_headers timeout true n)
  /\ forallb is_fetch_event (events_of (fetch_full_text_requests url timeout n))
     = true.
Proof.
  set (after := fun resp : Response =>
    if negb (status_code resp =? 200)%Z
    then bind (print (D_http_error (status_code resp)))
              (fun _ => ret EmptyString)
    else
      bind (lift (content resp)) (fun content_bytes =>
      match classify (content_type_of resp) url with
      | PDF =>
          bind (parse_pdf_with_pdfplumber content_bytes) (fun text =>
          if negb (truthy (strip text))
          then bind (print D_pdfplumber_no_text)
                    (fun _ => parse_pdf_with_ocr content_bytes)
          else ret text)
      | IMAGE => parse_image_with_ocr content_bytes
      | HTML => bind (lift (text resp)) (fun html_text => parse_html html_text)
      | UNKNOWN =>
          bind (print (D_unknown_content_type (content_type_of resp)))
               (fun _ => ret EmptyString)
      end)).
  set (handler := fun e : exn =>
    if is_RequestException e
    then bind (print (D_connect_failed url e)) (fun _ => ret EmptyString)
    else bind (print (D_cannot_fetch url e)) (fun _ => ret EmptyString)).
  assert (K : forall resp, keeps_net (after resp)
                           /\ emits is_fetch_event (after resp)).
  { intros resp. unfold after.
    destruct (negb (status_code resp =? 200)%Z); [split; local_run|].
    split.
    - apply keeps_net_bind; [local_run|]. intros b.
      destruct (classify (content_type_of resp) url).
      + apply keeps_net_bind; [apply parse_pdf_with_pdfplumber_footprint|].
        intros t. destruct (negb (truthy (strip t))); [|local_run].
        apply keeps_net_bind; [local_run|].
        intros _. apply parse_pdf_with_ocr_footprint.
      + apply parse_image_with_ocr_footprint.
      + apply keeps_net_bind; [local_run|].
        intros html. apply parse_html_footprint.
      + local_run.
    - apply emits_bind; [local_run|]. intros b.
      destruct (classify (content_type_of resp) url).
      + apply emits_bind; [apply parse_pdf_with_pdfplumber_footprint|].
        intros t. destruct (negb (truthy (strip t))); [|local_run].
        apply emits_bind; [local_run|].
        intros _. apply parse_pdf_with_ocr_footprint.
      + apply parse_image_with_ocr_footprint.
      + apply emits_bind; [local_run|].
        intros html. apply parse_html_footprint.
      + local_run. }
  assert (H : forall e, keeps_net (handler e)
                        /\ emits is_fetch_event (handler e)).
  { intros e. unfold handler.
    destruct (is_RequestException e); split; local_run. }
  change (fetch_full_text_requests url timeout n)
    with (try_except
            (bind (call_net (Ev_requests_get url timeout)
                     (requests_get env url fetch_headers timeout true))
                  after) handler n).
  unfold try_except, bind, call_net.
  destruct (requests_get env url fetch_headers timeout true n)
    as [[resp|e] n1]; cbn [snd].
  - destruct (K resp) as [Kn Ke]. specialize (Kn n1). specialize (Ke n1).
    unfold net_of, events_of in *.
    destruct (after resp n1) as [[[t|e] n2] ev2]; cbn in *.
    + split; auto.
    + destruct (H e) as [Hn He]. specialize (Hn n2). specialize (He n2).
      unfold net_of, events_of in *.
      destruct (handler e n2) as [[r n3] ev3]. cbn in *.
      split; [congruence|]. now rewrite forallb_app, Ke, He.
  - destruct (H e) as [Hn He]. specialize (Hn n1). specialize (He n1).
    unfold net_of, events_of in *.
    destruct (handler e n1) as [[r n3] ev3]. cbn in *.
    split; [congruence|]. exact He.
Qed.

Lemma can_crawl_run url n :
  can_crawl url n
  = if ROBOTS_PARSER_AVAILABLE env && truthy (registered_domain env url)
    then match requests_get env (robots_url_of url) [] 15 false n with
         | (Return resp, n1) =>
             (match (if (status_code resp =? 200)%Z
                     then match text resp with
                          | Return body => robots_is_allowed env body "*" url
                          | Raise e => Raise e
                          end
                     else Return true) with
              | Return b => Return b
              | Raise _ => Return true
              end, n1, [Ev_requests_get (robots_url_of url) 15])
         | (Raise _, n1) =>
             (Return true, n1, [Ev_requests_get (robots_url_of url) 15])
         end
    else (Return true, n, []).
Proof.
  unfold can_crawl. fold (robots_url_of url).
  destruct (ROBOTS_PARSER_AVAILABLE env); cbn [negb andb]; auto.
  destruct (truthy (registered_domain env url)); cbn [negb]; auto.
  run.
  destruct (requests_get env (robots_url_of url) [] 15%Z false n)
    as [[resp|e] n1]; auto.
  destruct (status_code resp =? 200)%Z; auto.
  destruct (text resp) as [body|e]; auto.
  destruct (robots_is_allowed env body "*" url); auto.
Qed.

(** X6. The gate asks for the policy at most once per call, over plain
    http at the registrable domain and with a time-out of 15 seconds: it
    makes this one request exactly when the parser is available and the
    domain of the url is not empty, whatever it was asked before (nothing
    is cached), and otherwise leaves the network alone. *)
Theorem can_crawl_one_policy_request url n :
  let asks :=
    ROBOTS_PARSER_AVAILABLE env && truthy (registered_domain env url) in
  events_of (can_crawl url n)
  = (if asks then [Ev_requests_get (robots_url_of url) 15] else [])
  /\ net_of (can_crawl url n)
     = (if asks
        then snd (requests_get env (robots_url_of url) [] 15 false n)
        else n).
Proof.
  cbn zeta. rewrite can_crawl_run.
  destruct (ROBOTS_PARSER_AVAILABLE env && truthy (registered_domain env url));
    [|split; reflexivity].
  destruct (requests_get env (robots_url_of url) [] 15%Z false n)
    as [[resp|e] n1]; split; reflexivity.
Qed.


(** X8. One fetch is one request: the fetcher asks for the url once, with
    the time-out it was given, before anything else; whatever the answer,
    the rest of its work (decoding, extraction, diagnostics) makes no
    further request and no call of the classifier, and leaves the network
    in the state that the request left. *)
Theorem fetcher_makes_one_request url timeout n :
  exists t ev,
    fetch_full_text_requests url timeout n
    = (Return t, snd (requests_get env url fetch_headers timeout true n),
       Ev_requests_get url timeout :: ev)
    /\ forallb is_local ev = true.
Proof.
  destruct (fetch_full_text_requests_run url timeout n)
    as (t & n' & ev & E & _ & L & _).
  destruct (fetch_full_text_requests_footprint url timeout n) as [N _].
  rewrite E in N. unfold net_of in N. cbn in N. subst n'.
  now exists t, ev.
Qed.

Ltac returns_normalized :=
  do 3 eexists; split; [reflexivity|]; left;
  first [apply empty_normalized | apply normalize_normalized].

(** X9. The text that the fetcher returns is fully normalized, with one
    exception: a PDF without text layer of which the OCR extractor
    recognises two pages or more, whose text is the normalized texts of
    these pages with line feeds between them. *)
Theorem fetched_text_normalized_unless_scanned url timeout n :
  exists t n' ev,
    fetch_full_text_requests url timeout n = (Return t, n', ev)
    /\ (normalized t
        \/ exists pieces,
             2 <= length pieces
             /\ Forall piece pieces
             /\ t = join newline pieces
             /\ In (Ev_print D_pdfplumber_no_text) ev).
Proof.
  unfold fetch_full_text_requests, try_except.
  unfold bind at 1. unfold call_net at 1. fold fetch_headers.
  destruct (requests_get env url fetch_headers timeout true n)
    as [[resp|e] n1] eqn:G.
  2:{ rewrite fetch_handler_run. returns_normalized. }
  destruct (status_code resp =? 200)%Z eqn:S; cbn [negb].
  2:{ run. cbn. returns_normalized. }
  unfold bind at 1. unfold lift at 1.
  destruct (content resp) as [b|e] eqn:C.
  2:{ rewrite fetch_handler_run. returns_normalized. }
  assert (O : forall ev1,
    exists t ev2,
      parse_pdf_with_ocr b n1 = (Return t, n1, ev2)
      /\ (normalized t
          \/ exists pieces,
               2 <= length pieces /\ Forall piece pieces
               /\ t = join newline pieces
               /\ In (Ev_print D_pdfplumber_no_text)
                    ([Ev_requests_get url timeout]
                     ++ ev1 ++ [Ev_print D_pdfplumber_no_text] ++ ev2))).
  { intros ev1.
    destruct (parse_pdf_with_ocr_normalized b n1) as (pieces & ev & E & F & I).
    do 2 eexists. split; [exact E|].
    destruct (le_lt_dec (length pieces) 1) as [L|L].
    - left. now apply I.
    - right. exists pieces. repeat split; auto.
      apply in_or_app. right. apply in_or_app. right. now left. }
  destruct (classify (content_type_of resp) url) eqn:K.
  - unfold bind at 1. rewrite parse_pdf_with_pdfplumber_run.
    destruct (pdfplumber_pages env b) as [pages|e1].
    + destruct (truthy (strip (normalize (join newline (text_pages_of pages)))));
        cbn [negb].
      * run. cbn. returns_normalized.
      * unfold bind at 1. unfold print, emit.
        destruct (O [Ev_pdfplumber b]) as (t & ev2 & -> & D).
        do 3 eexists. split; [reflexivity|]. exact D.
    + cbn [strip lstrip rstrip truthy negb].
      unfold bind at 1. unfold print, emit.
      destruct (O [Ev_pdfplumber b; Ev_print (D_pdfplumber_failed e1)])
        as (t & ev2 & -> & D).
      do 3 eexists. split; [reflexivity|]. exact D.
  - rewrite parse_image_with_ocr_run.
    destruct (Image_open env b) as [img|e1];
      [destruct (image_to_string env img "chi_tra")|]; returns_normalized.
  - unfold bind at 1. unfold lift at 1.
    destruct (text resp) as [html|e1].
    + rewrite parse_html_run.
      destruct (soup_get_text env html); [returns_normalized|].
      rewrite fetch_handler_run. returns_normalized.
    + rewrite fetch_handler_run. returns_normalized.
  - run. cbn. returns_normalized.
Qed.

Lemma local_events_no_network ev :
  forallb is_local ev = true -> filter is_network ev = [].
Proof.
  induction ev as [|e ev IH]; auto. cbn [forallb filter].
  intros H. apply andb_true_iff in H as [H1 H2].
  unfold is_local in H1. apply andb_true_iff in H1 as [H1 _].
  apply negb_true_iff in H1. rewrite H1. auto.
Qed.

(** ** The scorer and the loop, event by event *)

Lemma not_blank t : settled t -> truthy t = true -> all_space t = false.
Proof. apply settled_truthy. Qed.

(** X11. The scorer never touches the network and calls the classifier
    once at most: not at all on empty or white-space text or when the
    label string has fewer than two tokens, and otherwise once, with the
    text and the first two tokens. *)
Theorem scorer_footprint text binary_labels n :
  net_of (get_relate_domain_score text binary_labels n) = n
  /\ events_of (get_relate_domain_score text binary_labels n)
     = (if all_space text then []
        else match split " " binary_labels with
             | t0 :: t1 :: _ => [Ev_classifier text [t0; t1]]
             | _ => []
             end).
Proof.
  split.
  - destruct (get_relate_domain_score text binary_labels n)
      as [[r n1] ev] eqn:E.
    now apply score_net in E.
  - destruct (all_space text) eqn:B.
    + now rewrite (score_blank _ _ _ B).
    + destruct (split " " binary_labels) as [|t0 [|t1 rest]] eqn:S.
      * rewrite score_config_error; auto. rewrite S. cbn. lia.
      * rewrite score_config_error; auto. rewrite S. cbn. lia.
      * rewrite (score_run _ _ _ _ _ n B S).
        destruct (classifier env text [t0; t1]) as [out|e]; auto.
        destruct (list_index (labels out) t0) as [i|]; auto.
        destruct (nth_error (scores out) i); auto.
Qed.

(** What a score that is returned for a text that is not blank tells. *)
Lemma score_returned text binary_labels n s n' ev :
  all_space text = false ->
  get_relate_domain_score text binary_labels n = (Return s, n', ev) ->
  ev = [Ev_classifier text (firstn 2 (split " " binary_labels))]
  /\ (probability_oracle -> in_unit_interval s).
Proof.
  intros B E.
  destruct (split " " binary_labels) as [|t0 [|t1 rest]] eqn:S.
  - rewrite score_config_error in E; auto; [discriminate|]. rewrite S. cbn. lia.
  - rewrite score_config_error in E; auto; [discriminate|]. rewrite S. cbn. lia.
  - split.
    + rewrite (score_run _ _ _ _ _ n B S) in E. cbn [firstn].
      destruct (classifier env text [t0; t1]) as [out|e]; [|discriminate].
      destruct (list_index (labels out) t0) as [i|]; [|discriminate].
      destruct (nth_error (scores out) i); [|discriminate].
      now injection E as _ _ <-.
    + intros O.
      assert (L : 2 <= length (split " " binary_labels))
        by (rewrite S; cbn; lia).
      destruct (score_returns O text binary_labels n L) as (s' & ev' & E' & U).
      rewrite E in E'. now injection E' as ->.
Qed.

Lemma fetch_events_filtered ev :
  forallb is_fetch_event ev = true ->
  filter is_classifier ev = [] /\ filter is_skip ev = [].
Proof.
  induction ev as [|e ev IH]; auto. cbn [forallb filter].
  intros H. apply andb_true_iff in H as [H1 H2].
  destruct (IH H2) as [-> ->].
  destruct e as [| | | | | | | | |[]]; try discriminate; auto.
Qed.

(** When every print returns, the gated fetch never raises; its text is
    settled; its events are events of a fetch. *)
Lemma fetch_full_text_events url timeout n :
  exists t n' ev,
    fetch_full_text url timeout n = (Return t, n', ev)
    /\ settled t
    /\ forallb is_fetch_event ev = true.
Proof.
  destruct (can_crawl_returns url n) as (b & n1 & ev1 & C).
  assert (E1 : forallb is_fetch_event ev1 = true).
  { rewrite can_crawl_run in C.
    destruct (ROBOTS_PARSER_AVAILABLE env
              && truthy (registered_domain env url)).
    - destruct (requests_get env (robots_url_of url) [] 15%Z false n)
        as [[resp|e] n2]; injection C as _ _ <-; auto.
    - injection C as _ _ <-; auto. }
  destruct b.
  - rewrite (fetch_full_text_allowed _ timeout _ _ _ C).
    destruct (fetch_full_text_requests_run url timeout n1)
      as (t & n2 & ev2 & E & St & _).
    destruct (fetch_full_text_requests_footprint url timeout n1) as [_ F].
    rewrite E in F |- *. unfold events_of in F. cbn [snd] in F.
    do 3 eexists. split; [reflexivity|]. split; auto.
    now rewrite forallb_app, E1.
  - rewrite (fetch_full_text_denied _ timeout _ _ _ C).
    do 3 eexists. split; [reflexivity|]. split; [apply empty_settled|].
    now rewrite forallb_app, E1.
Qed.

(** Whenever the loop returns: one call of the classifier for each new
    record, with the text of the record, in order; one skip message for
    each hit that left no record; and scores of the unit interval when the
    classifier answers with probabilities. *)
Lemma search_duckduckgo_loop_trace raw binary_labels :
  forall results n out n' ev,
    search_duckduckgo_loop raw binary_labels results n = (Return out, n', ev) ->
    exists new,
      out = results ++ new
      /\ filter is_classifier ev
         = map (fun r => Ev_classifier (full_text r)
                           (firstn 2 (split " " binary_labels))) new
      /\ length (filter is_skip ev) + length new = length raw
      /\ (probability_oracle ->
          Forall (fun r => in_unit_interval (academic_score r)) new).
Proof.
  induction raw as [|r raw IH]; intros acc n out n' ev.
  - cbn. intros [= <- _ <-]. exists []. rewrite app_nil_r.
    repeat split; auto.
  - cbn [search_duckduckgo_loop].
    destruct (fetch_full_text_events (dict_get r "href" "") 10 n)
      as (t & n1 & ev1 & F & St & Fe).
    destruct (fetch_events_filtered _ Fe) as [Fc Fs].
    rewrite (bind_Return _ _ _ _ _ _ F).
    destruct (truthy t) eqn:T; cbn [negb].
    + unfold bind at 1.
      destruct (get_relate_domain_score t binary_labels n1)
        as [[[s|e] n2] ev2] eqn:G; [|discriminate].
      destruct (score_returned _ _ _ _ _ _ (not_blank _ St T) G) as [-> U].
      destruct (search_duckduckgo_loop raw binary_labels _ n2)
        as [[res n3] ev3] eqn:L.
      intros [= -> <- <-].
      destruct (IH _ _ _ _ _ L) as (new & -> & Hc & Hs & Hu).
      eexists. rewrite <- app_assoc. split; [reflexivity|].
      rewrite !filter_app, Fc, Fs. cbn [filter is_classifier is_skip app].
      rewrite Hc. cbn [map length full_text].
      split; [reflexivity|]. split; [cbn in Hs |- *; lia|].
      intros O. constructor; [now apply U|now apply Hu].
    + unfold bind at 1. unfold print, emit.
      destruct (search_duckduckgo_loop raw binary_labels acc n1)
        as [[res n3] ev3] eqn:L.
      intros [= -> <- <-].
      destruct (IH _ _ _ _ _ L) as (new & -> & Hc & Hs & Hu).
      exists new. split; [reflexivity|].
      rewrite !filter_app, Fc, Fs. cbn [filter is_classifier is_skip app].
      split; [exact Hc|]. split; [cbn in Hs |- *; lia|]. exact Hu.
Qed.

Lemma search_duckduckgo_returned query binary_labels max_results n out n' ev :
  search_duckduckgo query binary_labels max_results n = (Return out, n', ev) ->
  exists raw n1 ev',
    ddgs_text env query max_results n = (Return raw, n1)
    /\ search_duckduckgo_loop raw binary_labels [] n1 = (Return out, n', ev')
    /\ ev = Ev_ddgs_text query max_results :: ev'.
Proof.
  unfold search_duckduckgo, bind, call_net.
  destruct (ddgs_text env query max_results n) as [[raw|e] n1];
    [|discriminate].
  destruct (search_duckduckgo_loop raw binary_labels [] n1)
    as [[r n2] ev2] eqn:L.
  intros [= -> <- <-]. now exists raw, n1, ev2.
Qed.

(** X12. In a run that returns, the classifier is called exactly once for
    each record, in the order of the records, on the [full_text] of the
    record and the first two tokens of the label string; it is called for
    nothing else. *)
Theorem one_classifier_call_per_record
    query binary_labels max_results n out n' ev :
  search_duckduckgo query binary_labels max_results n = (Return out, n', ev) ->
  filter is_classifier ev
  = map (fun r => Ev_classifier (full_text r)
                    (firstn 2 (split " " binary_labels))) out.
Proof.
  intros R.
  destruct (search_duckduckgo_returned _ _ _ _ _ _ _ R)
    as (raw & n1 & ev' & _ & L & ->).
  destruct (search_duckduckgo_loop_trace _ _ _ _ _ _ _ L)
    as (new & -> & Hc & _).
  exact Hc.
Qed.

(** X13. In a run that returns, every hit of the search either leaves a
    record or is reported by one skip message: the records and the skip
    messages together are as many as the hits. *)
Theorem every_hit_recorded_or_skipped
    query binary_labels max_results n raw n1 out n' ev :
  ddgs_text env query max_results n = (Return raw, n1) ->
  search_duckduckgo query binary_labels max_results n = (Return out, n', ev) ->
  length (filter is_skip ev) + length out = length raw.
Proof.
  intros D R.
  destruct (search_duckduckgo_returned _ _ _ _ _ _ _ R)
    as (raw' & n1' & ev' & D' & L & ->).
  rewrite D in D'. injection D' as <- <-.
  destruct (search_duckduckgo_loop_trace _ _ _ _ _ _ _ L)
    as (new & -> & _ & Hs & _).
  exact Hs.
Qed.

(** X14. With a classifier that answers with a probability for each
    label, every record of a run that returns has a score of the closed
    interval from 0 to 1. *)
Theorem record_scores_in_unit_interval
    (O : probability_oracle) query binary_labels max_results n out n' ev :
  search_duckduckgo query binary_labels max_results n = (Return out, n', ev) ->
  Forall (fun r => in_unit_interval (academic_score r)) out.
Proof.
  intros R.
  destruct (search_duckduckgo_returned _ _ _ _ _ _ _ R)
    as (raw & n1 & ev' & _ & L & ->).
  destruct (search_duckduckgo_loop_trace _ _ _ _ _ _ _ L)
    as (new & -> & _ & _ & Hu).
  now apply Hu.
Qed.

Lemma score_result_any_state text binary_labels n m :
  result_of (get_relate_domain_score text binary_labels n)
  = result_of (get_relate_domain_score text binary_labels m).
Proof.
  destruct (all_space text) eqn:B.
  - now rewrite !(score_blank _ _ _ B).
  - destruct (split " " binary_labels) as [|t0 [|t1 rest]] eqn:S.
    + rewrite !score_config_error; auto; rewrite S; cbn; lia.
    + rewrite !score_config_error; auto; rewrite S; cbn; lia.
    + rewrite (score_run _ _ _ _ _ n B S), (score_run _ _ _ _ _ m B S).
      destruct (classifier env text [t0; t1]) as [out|e]; auto.
      destruct (list_index (labels out) t0) as [i|]; auto.
      destruct (nth_error (scores out) i); auto.
Qed.

(** The loop stops with the exception of the first surviving hit whose
    scoring raises. *)
Lemma search_duckduckgo_loop_aborts raw binary_labels e :
  forall results n pre r t rest,
    survivors raw n = pre ++ (r, t) :: rest ->
    Forall (fun p => exists s,
              result_of (get_relate_domain_score (snd p) binary_labels n)
              = Return s) pre ->
    result_of (get_relate_domain_score t binary_labels n) = Raise e ->
    exists n' ev,
      search_duckduckgo_loop raw binary_labels results n = (Raise e, n', ev).
Proof.
  induction raw as [|r0 raw IH]; intros acc n pre r t rest.
  - destruct pre; discriminate.
  - unfold survivors. rewrite fetched_step.
    cbn [search_duckduckgo_loop].
    destruct (fetch_full_text_run (dict_get r0 "href" "") 10 n)
      as (t0 & n1 & ev1 & F & _).
    rewrite (bind_Return _ _ _ _ _ _ F).
    rewrite F. unfold text_of, net_of. cbn [result_of fst snd filter].
    destruct (truthy t0) eqn:T; cbn [negb].
    + destruct pre as [|p pre]; cbn [app].
      * intros [= <- <- _] _ Hr.
        rewrite (score_result_any_state _ _ n n1) in Hr.
        unfold bind. unfold result_of in Hr.
        destruct (get_relate_domain_score t0 binary_labels n1)
          as [[[s|e'] n2] ev2]; cbn in Hr; [discriminate|].
        injection Hr as ->. now do 2 eexists.
      * intros [= <- E] Hp Hr. inversion Hp as [|? ? [s Hs] Hp']; subst.
        cbn [snd] in Hs. rewrite (score_result_any_state _ _ n n1) in Hs.
        unfold bind at 1. unfold result_of in Hs.
        destruct (get_relate_domain_score t0 binary_labels n1)
          as [[[s'|e'] n2] ev2] eqn:G; cbn in Hs; [|discriminate].
        apply score_net in G. subst n2.
        match goal with
        | |- context [search_duckduckgo_loop raw binary_labels ?a n1] =>
            destruct (IH a n1 pre r t rest E) as (n3 & ev3 & ->)
        end.
        -- eapply Forall_impl; [|exact Hp']. intros p [s0 H0]. exists s0.
           now rewrite (score_result_any_state _ _ n1 n).
        -- now rewrite (score_result_any_state _ _ n1 n).
        -- now do 2 eexists.
    + intros E Hp Hr. unfold bind, print, emit.
      destruct (IH acc n1 pre r t rest E) as (n3 & ev3 & ->).
      * eapply Forall_impl; [|exact Hp]. intros p [s0 H0]. exists s0.
        now rewrite (score_result_any_state _ _ n1 n).
      * now rewrite (score_result_any_state _ _ n1 n).
      * now do 2 eexists.
Qed.

(** X15. An exception of the scorer on one hit ends the whole run: when
    the scoring of a surviving hit raises, the hits before it having been
    scored, the run raises this exception, and the records already built
    are not returned. *)
Theorem scoring_exception_aborts_run
    query binary_labels max_results n raw n1 pre r t rest e :
  ddgs_text env query max_results n = (Return raw, n1) ->
  survivors raw n1 = pre ++ (r, t) :: rest ->
  Forall (fun p => exists s,
            result_of (get_relate_domain_score (snd p) binary_labels n1)
            = Return s) pre ->
  result_of (get_relate_domain_score t binary_labels n1) = Raise e ->
  exists n' ev,
    search_duckduckgo query binary_labels max_results n = (Raise e, n', ev).
Proof.
  intros D S Hp Hr.
  destruct (search_duckduckgo_loop_aborts raw binary_labels e [] n1
              pre r t rest S Hp Hr) as (n' & ev & L).
  unfold search_duckduckgo, bind, call_net. rewrite D, L.
  now do 2 eexists.
Qed.

(** ** The entry point *)

Lemma no_dump_in_search f r ev : ~ In (Main_dump f r) (map Main_search ev).
Proof. intros H. apply in_map_iff in H as (e & E & _). discriminate. Qed.

Lemma search_in_trace e ev : In (Main_search e) (map Main_search ev) -> In e ev.
Proof.
  intros H. apply in_map_iff in H as (e' & E & I). now injection E as ->.
Qed.

Ltac in_cases H :=
  cbn [main_trace] in H;
  repeat (cbn [In app] in H;
          match type of H with
          | In _ (_ ++ _) => apply in_app_or in H
          | _ \/ _ => destruct H as [H|H]
          | False => contradiction
          | _ = _ => try discriminate H
          | In _ (map Main_search _) =>
              first [ apply no_dump_in_search in H; contradiction
                    | apply search_in_trace in H ]
          end).

(** X16. [main] writes a file only after a search that returned at least
    one record: what it writes, to [all_search_results.json] and nowhere
    else, is the list of records that the pipeline returned for the query,
    the labels and the count read from standard input.  A blank query, a
    count that is not a number, an exception of the pipeline or an empty
    result leave no file. *)
Theorem main_writes_the_records_found stdin n file records :
  In (Main_dump file records) (main_trace (main stdin n)) ->
  file = "all_search_results.json"
  /\ records <> []
  /\ exists query binary_labels line rest max_results n1 ev,
       stdin = query :: binary_labels :: line :: rest
       /\ all_space query = false
       /\ max_results_of line = Return max_results
       /\ search_duckduckgo query binary_labels max_results n
          = (Return records, n1, ev).
Proof.
  unfold main.
  destruct stdin as [|query stdin]; [intros H; in_cases H|].
  destruct (truthy (strip query)) eqn:Q; cbn [negb];
    [|intros H; in_cases H].
  destruct stdin as [|binary_labels [|line rest]];
    try (intros H; in_cases H; fail).
  assert (B : all_space query = false).
  { destruct (all_space query) eqn:B; auto.
    apply strip_empty_iff in B. congruence. }
  destruct (max_results_of line) as [max_results|e] eqn:I;
    [|intros H; in_cases H].
  destruct (search_duckduckgo query binary_labels max_results n)
    as [[[results|e] n1] ev] eqn:S; [|intros H; in_cases H].
  destruct results as [|r results]; [intros H; in_cases H|].
  destruct (dump_json console "all_search_results.json" (r :: results));
    intros H; in_cases H; injection H as <- <-;
    (split; [reflexivity|]; split; [discriminate|]);
    now exists query, binary_labels, line, rest, max_results, n1, ev.
Qed.

(** X17. [main] lets the pipeline act only when the query holds a
    character other than white space and the count is empty or accepted by
    [int]: every search, request or classifier call in its trace belongs to
    the one run of the pipeline on the three lines read.  On a blank query
    or a count that [int] rejects, nothing leaves the machine. *)
Theorem main_acts_only_on_valid_input stdin n e :
  In (Main_search e) (main_trace (main stdin n)) ->
  exists query binary_labels line rest max_results,
    stdin = query :: binary_labels :: line :: rest
    /\ all_space query = false
    /\ max_results_of line = Return max_results
    /\ In e (events_of
               (search_duckduckgo query binary_labels max_results n)).
Proof.
  unfold main.
  destruct stdin as [|query stdin]; [intros H; in_cases H|].
  destruct (truthy (strip query)) eqn:Q; cbn [negb];
    [|intros H; in_cases H].
  destruct stdin as [|binary_labels [|line rest]];
    try (intros H; in_cases H; fail).
  assert (B : all_space query = false).
  { destruct (all_space query) eqn:B; auto.
    apply strip_empty_iff in B. congruence. }
  destruct (max_results_of line) as [max_results|e'] eqn:I;
    [|intros H; in_cases H].
  destruct (search_duckduckgo query binary_labels max_results n)
    as [[[results|e'] n1] ev] eqn:S.
  - destruct results as [|r results];
      [|destruct (dump_json console "all_search_results.json"
                    (r :: results))];
      intros H; in_cases H;
      exists query, binary_labels, line, rest, max_results;
      rewrite S; auto.
  - intros H; in_cases H.
    exists query, binary_labels, line, rest, max_results. rewrite S. auto.
Qed.

(** ** The dispatch *)

Lemma parse_pdf_with_ocr_loop_ocr_events images :
  forall ocr_texts,
    emits is_ocr_or_print (parse_pdf_with_ocr_loop images ocr_texts).
Proof.
  induction images as [|img images IH]; intros acc;
    cbn [parse_pdf_with_ocr_loop]; local_run; auto.
  destruct (truthy (normalize a)); local_run.
Qed.

Lemma ocr_events_belong resp b ev :
  forallb is_ocr_or_print ev = true -> Forall (belongs_to PDF resp b) ev.
Proof.
  induction ev as [|e ev IH]; auto. cbn [forallb].
  intros H. apply andb_true_iff in H as [H1 H2].
  constructor; [|now apply IH].
  destruct e; try discriminate; cbn; auto.
Qed.

Lemma parse_pdf_with_ocr_belongs resp b n :
  exists t ev,
    parse_pdf_with_ocr b n = (Return t, n, ev)
    /\ Forall (belongs_to PDF resp b) ev.
Proof.
  unfold parse_pdf_with_ocr. run.
  destruct (convert_from_bytes env b 300) as [images|e].
  - pose proof (parse_pdf_with_ocr_loop_ocr_events images [] n) as L.
    destruct (parse_pdf_with_ocr_loop_run images [] n)
      as (new & ev & E & _).
    rewrite E in L |- *. unfold events_of in L. cbn [snd] in L.
    do 2 eexists. split; [reflexivity|].
    constructor; [now split|]. rewrite app_nil_r.
    now apply ocr_events_belong.
  - do 2 eexists. split; [reflexivity|].
    repeat constructor.
Qed.

Ltac belongs :=
  do 2 eexists; split; [reflexivity|];
  repeat (constructor; cbn [belongs_to]; auto).

(** X18. Once a response with status 200 and a readable body is
    classified, the fetcher calls the extractor of that format and no
    other, on the body of this response: the PDF extractors for PDF, the
    image extractor for IMAGE, the HTML parser (on the decoded text of the
    response) for HTML, and none at all for an unsupported type.  In
    particular a url ending in [.pdf] is never parsed as HTML, whatever the
    content type says. *)
Theorem dispatch_calls_one_extractor url timeout n resp n1 b :
  requests_get env url fetch_headers timeout true n = (Return resp, n1) ->
  status_code resp = 200%Z ->
  content resp = Return b ->
  exists t ev,
    fetch_full_text_requests url timeout n
    = (Return t, n1, Ev_requests_get url timeout :: ev)
    /\ Forall (belongs_to (classify (content_type_of resp) url) resp b) ev.
Proof.
  intros G S C. apply Z.eqb_eq in S.
  unfold fetch_full_text_requests, try_except.
  unfold bind at 1. unfold call_net at 1. fold fetch_headers.
  rewrite G, S. cbn [negb].
  unfold bind at 1. unfold lift at 1. rewrite C.
  destruct (classify (content_type_of resp) url) eqn:K.
  - unfold bind at 1. rewrite parse_pdf_with_pdfplumber_run.
    destruct (parse_pdf_with_ocr_belongs resp b n1) as (t2 & ev2 & O & F).
    destruct (pdfplumber_pages env b) as [pages|e1].
    + destruct (truthy (strip (normalize (join newline (text_pages_of pages)))));
        cbn [negb].
      * run. cbn. belongs.
      * unfold bind at 1. unfold print, emit. rewrite O.
        do 2 eexists. split; [reflexivity|].
        constructor; [now split|]. constructor; [exact I|]. exact F.
    + cbn [strip lstrip rstrip truthy negb].
      unfold bind at 1. unfold print, emit. rewrite O.
      do 2 eexists. split; [reflexivity|].
      constructor; [now split|]. do 2 (constructor; [exact I|]). exact F.
  - rewrite parse_image_with_ocr_run.
    destruct (Image_open env b) as [img|e1];
      [destruct (image_to_string env img "chi_tra")|]; belongs.
  - unfold bind at 1. unfold lift at 1.
    destruct (text resp) as [html|e1] eqn:X.
    + rewrite parse_html_run.
      destruct (soup_get_text env html).
      * belongs.
      * rewrite fetch_handler_run. belongs.
    + rewrite fetch_handler_run. belongs.
  - run. cbn. belongs.
Qed.

End Program.

(** ** The program on the small web *)

Arguments result_of {env A} o.
Arguments net_of {env A} o.
Arguments events_of {env A} o.
Arguments text_of {env} o.

(** The stand-in classifier answers with a probability for each label. *)
Lemma uniform_probability_oracle s : probability_oracle (Double.env s).
Proof.
  intros text l. eexists. split; [reflexivity|]. cbn.
  split; [apply Permutation_refl|]. split; [apply length_map|].
  induction l; constructor; auto. split; reflexivity.
Qed.

(** The end-to-end scenario of the specification: of a PDF with the text
    layer "Hello World" and a page of a domain whose policy denies all
    agents, the first alone leaves a record. *)
Example run_two_hits :
  search_duckduckgo Web.W "q" "Academic Non-Academic" 5 0
  = (Return [{| title := "A paper";
                link := "http://example.com/a.pdf";
                snippet := "first";
                full_text := "Hello World";
                academic_score := 0.5 |}],
     4,
     [Ev_ddgs_text "q" 5;
      Ev_requests_get "http://example.com/robots.txt" 15;
      Ev_requests_get "http://example.com/a.pdf" 10;
      Ev_pdfplumber Web.text_pdf;
      Ev_classifier "Hello World" ["Academic"; "Non-Academic"];
      Ev_requests_get "http://blocked.example/robots.txt" 15;
      Ev_print (D_robots_disallowed "http://blocked.example/x");
      Ev_print (D_skipped "http://blocked.example/x")]).
Proof. reflexivity. Qed.

(** A PDF without text layer whose scan holds white space only: the OCR
    extractor is tried, and the fetch gives the empty text. *)
Example fetch_blank_pdf :
  result_of (fetch_full_text_requests Web.W "http://example.com/blank.pdf" 10 0)
  = Return EmptyString.
Proof. reflexivity. Qed.

(** The gate denies a url of the blocked domain, and no other. *)
Example gate_on_small_web :
  result_of (can_crawl Web.W "http://blocked.example/x" 0) = Return false
  /\ result_of (can_crawl Web.W "http://example.com/page" 0) = Return true
  /\ result_of (can_crawl Web.W "http://nowhere.example/" 0) = Return true.
Proof. repeat split. Qed.

(** A request that cannot be made and a page that is not found give the
    empty text and a diagnostic. *)
Example fetch_failures :
  fetch_full_text_requests Web.W "http://nowhere.example/" 10 0
  = (Return EmptyString, 1,
     [Ev_requests_get "http://nowhere.example/" 10;
      Ev_print (D_connect_failed "http://nowhere.example/"
                  (RequestException "connection refused"))])
  /\ fetch_full_text_requests Web.W "http://example.com/none" 10 0
     = (Return EmptyString, 1,
        [Ev_requests_get "http://example.com/none" 10;
         Ev_print (D_http_error 404)]).
Proof. split; reflexivity. Qed.

(** *** C1 *)

Lemma pipeline_is_stable_filter_witness :
  ddgs_text Web.W "q" 5 0 = (Return Web.two_hits, 1)
  /\ exists out n' ev,
       search_duckduckgo Web.W "q" "Academic Non-Academic" 5 0
       = (Return out, n', ev)
       /\ map record_fields out = map (hit_fields) (survivors Web.W Web.two_hits 1)
       /\ length out <= length Web.two_hits
       /\ Forall (fun r => full_text r <> EmptyString) out.
Proof.
  split; [reflexivity|].
  destruct (pipeline_is_stable_filter Web.W "q" "Academic Non-Academic" 5 0
              Web.two_hits 1 eq_refl) as [P1 P2].
  destruct (P2 (uniform_probability_oracle _) (le_n 2)) as (out & n' & ev & E).
  exists out, n', ev. split; [exact E|]. exact (P1 out n' ev E).
Defined.

(** *** C2 *)

(** C2. The dispatch follows the order of the specification on every url
    that does not end in a line feed ([classify_meets_spec]); but the image
    pattern ends in [$], which also matches before a final line feed, so
    that a url made of an image suffix and a line feed is classified IMAGE
    although it does not end in any of the suffixes: with an empty content
    type the specification gives UNKNOWN, with an HTML one HTML. *)
Theorem image_dispatch_accepts_trailing_newline :
  let url := ("http://example.com/a.png" ++ newline)%string in
  ends_in_image_suffix (lower url) = false
  /\ classify_spec "" url = UNKNOWN
  /\ classify "" url = IMAGE
  /\ classify_spec "text/html" url = HTML
  /\ classify "text/html" url = IMAGE.
Proof. repeat split. Qed.

(** The suffix ".pdf" is compared with [endswith]: there the line feed
    counts. *)
Example pdf_dispatch_rejects_trailing_newline :
  classify "" "FILE.PDF" = PDF
  /\ classify "" ("FILE.PDF" ++ newline)%string = UNKNOWN.
Proof. split; reflexivity. Qed.

(** *** C3 *)


(** *** C4 *)

Lemma score_unit_interval_and_blank_zero_witness :
  2 <= length (split " " "Academic Non-Academic")
  /\ (exists s ev,
         get_relate_domain_score Web.W "Hello World" "Academic Non-Academic" 0
         = (Return s, 0, ev)
         /\ in_unit_interval s)
  /\ (all_space "Hello World" = true ->
      get_relate_domain_score Web.W "Hello World" "Academic Non-Academic" 0
      = (Return 0%float, 0, [])).
Proof.
  split; [exact (le_n 2)|].
  exact (score_unit_interval_and_blank_zero Web.W (uniform_probability_oracle _)
           "Hello World" "Academic Non-Academic" 0 (le_n 2)).
Defined.

(** *** C5 *)

(** C5, as stated, fails twice: a label string of one label said twice has
    fewer than two distinct labels, and the scorer calls the classifier and
    returns its score; and on an empty text one label alone gives 0.0, not
    an error. *)
Lemma score_configuration_error_counterexample :
  (distinct_labels "Academic Academic" < 2
   /\ get_relate_domain_score Web.W "Hello World" "Academic Academic" 0
      = (Return 0.5%float, 0,
         [Ev_classifier "Hello World" ["Academic"; "Academic"]]))
  /\ (distinct_labels "Academic" < 2
      /\ get_relate_domain_score Web.W "" "Academic" 0 = (Return 0%float, 0, [])).
Proof. repeat split; apply le_n. Qed.

Lemma score_configuration_error_witness :
  length (split " " "Academic") < 2
  /\ (all_space "Hello World" = false ->
      get_relate_domain_score Web.W "Hello World" "Academic" 0
      = (Raise (ValueError "target_labels must contain at least two elements."),
         0, []))
  /\ (all_space "Hello World" = true ->
      get_relate_domain_score Web.W "Hello World" "Academic" 0
      = (Return 0%float, 0, [])).
Proof.
  split; [exact (le_n 2)|].
  exact (score_configuration_error Web.W "Hello World" "Academic" 0 (le_n 2)).
Defined.

(** *** C8 *)



(** *** C9 *)

(** C9. The HTML, text-layer and image extractors return normalized texts
    ([parse_html_normalized], [parse_pdf_with_pdfplumber_normalized],
    [parse_image_with_ocr_normalized]); the OCR extractor of PDF documents
    normalizes each page and then joins the pages with line feeds, so that
    its text is not normalized as soon as two pages have a text
    ([parse_pdf_with_ocr_normalized]): the scanned PDF of two pages is
    fetched as the two texts with a line feed between them. *)
Theorem ocr_fallback_text_not_normalized :
  fetch_full_text_requests Web.W "http://example.com/scan.pdf" 10 0
  = (Return ("a" ++ newline ++ "b")%string, 1,
     [Ev_requests_get "http://example.com/scan.pdf" 10;
      Ev_pdfplumber Web.scan_pdf;
      Ev_print D_pdfplumber_no_text;
      Ev_convert_from_bytes Web.scan_pdf;
      Ev_image_to_string; Ev_image_to_string])
  /\ ~ normalized ("a" ++ newline ++ "b")%string
  /\ normalized (normalize ("a" ++ newline ++ "b")%string).
Proof.
  split; [reflexivity|]. split.
  - intros (S & _). discriminate S.
  - apply normalize_normalized.
Qed.

(** *** C10 *)

Lemma score_uses_first_two_tokens_witness :
  all_space "Hello World" = false
  /\ split " " "Academic Paper Non-Academic"
     = ["Academic"; "Paper"; "Non-Academic"]
  /\ events_of (get_relate_domain_score Web.W "Hello World"
                  "Academic Paper Non-Academic" 0)
     = [Ev_classifier "Hello World" ["Academic"; "Paper"]]
  /\ get_relate_domain_score Web.W "Hello World" "Academic Paper Non-Academic" 0
     = get_relate_domain_score Web.W "Hello World" "Academic Paper" 0.
Proof.
  split; [reflexivity|]. split; [reflexivity|].
  pose (T := score_uses_first_two_tokens Web.W "Hello World"
               "Academic Paper Non-Academic" "Academic" "Paper"
               ["Non-Academic"] 0 eq_refl eq_refl).
  split; [exact (proj1 (proj2 T)) | exact (proj1 (proj2 (proj2 T)))].
Defined.

(** ** Further runs on the small web *)

Lemma text_layer_is_words_of_pages_witness :
  pdfplumber_pages Web.W Web.text_pdf = Return [Some "Hello World"]
  /\ parse_pdf_with_pdfplumber Web.W Web.text_pdf 0
     = (Return "Hello World", 0, [Ev_pdfplumber Web.text_pdf]).
Proof.
  split; [reflexivity|].
  exact (text_layer_is_words_of_pages Web.W Web.text_pdf 0
           [Some "Hello World"] eq_refl).
Defined.




Lemma one_classifier_call_per_record_witness :
  exists out n' ev,
    search_duckduckgo Web.W "q" "Academic Non-Academic extra" 5 0
    = (Return out, n', ev)
    /\ filter is_classifier ev
       = map (fun r => Ev_classifier (full_text r) ["Academic"; "Non-Academic"])
           out.
Proof.
  do 3 eexists. split; [reflexivity|].
  exact (one_classifier_call_per_record Web.W "q"
           "Academic Non-Academic extra" 5 0 _ _ _ eq_refl).
Defined.

Lemma every_hit_recorded_or_skipped_witness :
  ddgs_text Web.W "q" 5 0 = (Return Web.two_hits, 1)
  /\ exists out n' ev,
       search_duckduckgo Web.W "q" "Academic Non-Academic" 5 0
       = (Return out, n', ev)
       /\ length (filter is_skip ev) + length out = 2.
Proof.
  split; [reflexivity|]. do 3 eexists. split; [reflexivity|].
  exact (every_hit_recorded_or_skipped Web.W "q" "Academic Non-Academic" 5 0
           Web.two_hits 1 _ _ _ eq_refl eq_refl).
Defined.

Lemma record_scores_in_unit_interval_witness :
  exists out n' ev,
    search_duckduckgo Web.W "q" "Academic Non-Academic" 5 0
    = (Return out, n', ev)
    /\ Forall (fun r => in_unit_interval (academic_score r)) out.
Proof.
  do 3 eexists. split; [reflexivity|].
  exact (record_scores_in_unit_interval Web.W (uniform_probability_oracle _)
           "q" "Academic Non-Academic" 5 0 _ _ _ eq_refl).
Defined.

(** The paper is scored, the photo makes the classifier fail, and the run
    ends there: the record of the paper is lost and the page is never
    fetched. *)
Lemma scoring_exception_aborts_run_witness :
  survivors Flaky.world Flaky.three_hits 1
  = [(Flaky.paper, "Hello World")]
    ++ (Flaky.photo, "a picture") :: [(Flaky.page, "Hello World")]
  /\ exists n' ev,
       search_duckduckgo Flaky.world "q" "Academic Non-Academic" 5 0
       = (Raise Flaky.out_of_memory, n', ev).
Proof.
  split; [reflexivity|].
  refine (scoring_exception_aborts_run Flaky.world "q"
            "Academic Non-Academic" 5 0 Flaky.three_hits 1
            [(Flaky.paper, "Hello World")] Flaky.photo "a picture"
            [(Flaky.page, "Hello World")] Flaky.out_of_memory
            eq_refl eq_refl _ eq_refl).
  constructor; [|constructor]. exists 0.5%float. reflexivity.
Defined.

Example run_three_hits_aborts :
  search_duckduckgo Flaky.world "q" "Academic Non-Academic" 5 0
  = (Raise Flaky.out_of_memory, 5,
     [Ev_ddgs_text "q" 5;
      Ev_requests_get "http://example.com/robots.txt" 15;
      Ev_requests_get "http://example.com/a.pdf" 10;
      Ev_pdfplumber Web.text_pdf;
      Ev_classifier "Hello World" ["Academic"; "Non-Academic"];
      Ev_requests_get "http://example.com/robots.txt" 15;
      Ev_requests_get "http://example.com/photo.png" 10;
      Ev_Image_open (list_byte_of_string "PNG");
      Ev_image_to_string;
      Ev_classifier "a picture" ["Academic"; "Non-Academic"]]).
Proof. reflexivity. Qed.

Lemma dispatch_calls_one_extractor_witness :
  requests_get Web.W "http://example.com/page" fetch_headers 10 true 0
  = (Return (Double.ok "text/html; charset=utf-8" "  Hello   World "), 1)
  /\ exists t ev,
       fetch_full_text_requests Web.W "http://example.com/page" 10 0
       = (Return t, 1, Ev_requests_get "http://example.com/page" 10 :: ev)
       /\ Forall (belongs_to HTML
                    (Double.ok "text/html; charset=utf-8" "  Hello   World ")
                    (list_byte_of_string "  Hello   World ")) ev.
Proof.
  split; [reflexivity|].
  exact (dispatch_calls_one_extractor Web.W "http://example.com/page" 10 0
           (Double.ok "text/html; charset=utf-8" "  Hello   World ") 1
           (list_byte_of_string "  Hello   World ") eq_refl eq_refl eq_refl).
Defined.

(** *** The entry point *)

Lemma main_writes_the_records_found_witness :
  In (Main_dump "all_search_results.json" [Desk.the_record])
     (main_trace Web.W
        (main Web.W Desk.console ["q"; "Academic Non-Academic"; ""] 0))
  /\ exists n1 ev,
       search_duckduckgo Web.W "q" "Academic Non-Academic" 5 0
       = (Return [Desk.the_record], n1, ev).
Proof.
  assert (I : In (Main_dump "all_search_results.json" [Desk.the_record])
                (main_trace Web.W
                   (main Web.W Desk.console
                      ["q"; "Academic Non-Academic"; ""] 0))).
  { do 12 right. left. reflexivity. }
  split; [exact I|].
  destruct (main_writes_the_records_found Web.W Desk.console _ _ _ _ I)
    as (_ & _ & query & binary_labels & line & rest & max_results & n1 & ev
        & E & _ & M & S).
  injection E as <- <- <- _. injection M as <-.
  now exists n1, ev.
Defined.

Lemma main_acts_only_on_valid_input_witness :
  In (Main_search (Ev_ddgs_text "q" 3))
     (main_trace Web.W
        (main Web.W Desk.console ["q"; "Academic Non-Academic"; "3"] 0))
  /\ max_results_of Desk.console "3" = Return 3%Z.
Proof.
  assert (I : In (Main_search (Ev_ddgs_text "q" 3))
                (main_trace Web.W
                   (main Web.W Desk.console
                      ["q"; "Academic Non-Academic"; "3"] 0))).
  { do 4 right. left. reflexivity. }
  split; [exact I|].
  destruct (main_acts_only_on_valid_input Web.W Desk.console _ _ _ I)
    as (query & binary_labels & line & rest & max_results & E & _ & M & _).
  injection E as <- <- <- _. reflexivity.
Defined.

(** A blank query, a count that is not a number: nothing is searched. *)
Example main_rejects :
  main Web.W Desk.console ["   "; "Academic Non-Academic"; "3"] 0
  = Build_MainRun Web.W (Return tt) 0
      [Main_input Ask_query; Main_print Say_empty_query]
      ["Academic Non-Academic"; "3"]
  /\ main Web.W Desk.console ["q"; "Academic Non-Academic"; "three"] 0
     = Build_MainRun Web.W
         (Raise (ValueError "invalid literal for int() with base 10")) 0
         [Main_input Ask_query; Main_input Ask_labels; Main_input Ask_count]
         [].
Proof. split; reflexivity. Qed.

(** * A standard output that may refuse a message

    Above, [print] always returns.  Python's [print] raises when standard
    output cannot take the text (an encoding that lacks the characters of
    the message, a closed pipe), and the source prints its diagnostics
    inside its [try] blocks, inside its [except] handlers and outside any
    [try].  Here are the functions that print, once more, with a [print]
    that may raise; the functions that do not print ([can_crawl],
    [get_relate_domain_score], [parse_html]) are the ones above.  With a
    standard output that takes every message these functions are the ones
    above ([fetcher_with_quiet_stdout]). *)

Arguments ret {env A} a.
Arguments raise {env A} e.
Arguments bind {env A B} m k.
Arguments try_except {env A} m h.
Arguments call {env A} e r.
Arguments call_net {env A} e f.
Arguments lift {env A} r.
Arguments emits {env A} P m.
Arguments returns {env A} m.

Module Printing.

Section Run.

Variable env : Env.

(** [print(message)] for the message of a diagnostic: whether standard
    output takes it may depend on the message and on the state of the
    outside world. *)
Variable stdout_write : diagnostic -> Net env -> result unit.

Local Notation "x <- m ;; k" := (bind m (fun x => k))
  (at level 61, m at next level, right associativity).
Local Notation "m ;;; k" := (bind m (fun _ => k))
  (at level 61, right associativity).

Definition print (d : diagnostic) : M env unit :=
  fun n => (stdout_write d n, n, [Ev_print d]).

Definition parse_pdf_with_pdfplumber (pdf_bytes : bytes) : M env str :=
  try_except
    (pages <- call (Ev_pdfplumber pdf_bytes) (pdfplumber_pages env pdf_bytes) ;;
     let text_pages := text_pages_of pages in
     let text := join newline text_pages in
     let text := normalize text in
     ret text)
    (fun e => print (D_pdfplumber_failed e) ;;; ret "").

Fixpoint parse_pdf_with_ocr_loop (images : list (image env))
    (ocr_texts : list str) : M env (list str) :=
  match images with
  | [] => ret ocr_texts
  | img :: images' =>
      ocr_texts <- try_except
                     (text <- call Ev_image_to_string
                                   (image_to_string env img "chi_tra") ;;
                      let text := normalize text in
                      if truthy text then ret (ocr_texts ++ [text])
                      else ret ocr_texts)
                     (fun e => print (D_ocr_failed e) ;;; ret ocr_texts) ;;
      parse_pdf_with_ocr_loop images' ocr_texts
  end.

Definition parse_pdf_with_ocr (pdf_bytes : bytes) : M env str :=
  converted <- try_except
                 (images <- call (Ev_convert_from_bytes pdf_bytes)
                                 (convert_from_bytes env pdf_bytes 300) ;;
                  ret (Some images))
                 (fun e => print (D_pdf_to_image_failed e) ;;; ret None) ;;
  match converted with
  | None => ret ""
  | Some images =>
      ocr_texts <- parse_pdf_with_ocr_loop images [] ;;
      ret (join newline ocr_texts)
  end.

Definition parse_image_with_ocr (image_bytes : bytes) : M env str :=
  try_except
    (img <- call (Ev_Image_open image_bytes) (Image_open env image_bytes) ;;
     text <- call Ev_image_to_string (image_to_string env img "chi_tra") ;;
     let text := normalize text in
     ret text)
    (fun e => print (D_image_ocr_failed e) ;;; ret "").

Definition fetch_full_text_requests (url : str) (timeout : Z) : M env str :=
  let headers := [("User-Agent", "Mozilla/5.0")] in
  try_except
    (resp <- call_net (Ev_requests_get url timeout)
                      (requests_get env url headers timeout true) ;;
     if negb (status_code resp =? 200)%Z then
       print (D_http_error (status_code resp)) ;;; ret ""
     else
       let content_type := content_type_of resp in
       content_bytes <- lift (content resp) ;;
       match classify content_type url with
       | PDF =>
           text <- parse_pdf_with_pdfplumber content_bytes ;;
           if negb (truthy (strip text)) then
             print D_pdfplumber_no_text ;;;
             parse_pdf_with_ocr content_bytes
           else ret text
       | IMAGE => parse_image_with_ocr content_bytes
       | HTML =>
           html_text <- lift (text resp) ;;
           parse_html env html_text
       | UNKNOWN =>
           print (D_unknown_content_type content_type) ;;; ret ""
       end)
    (fun e =>
       if is_RequestException e
       then print (D_connect_failed url e) ;;; ret ""
       else print (D_cannot_fetch url e) ;;; ret "").

Definition fetch_full_text (url : str) (timeout : Z) : M env str :=
  allowed <- can_crawl env url ;;
  if negb allowed then
    print (D_robots_disallowed url) ;;; ret ""
  else if USE_SELENIUM then fetch_full_text_selenium env url timeout
  else fetch_full_text_requests url timeout.

Fixpoint search_duckduckgo_loop (raw_results : list dict)
    (binary_labels : str) (results : list ResultRecord)
  : M env (list ResultRecord) :=
  match raw_results with
  | [] => ret results
  | r :: raw_results' =>
      let title_ := dict_get r "title" "" in
      let link_ := dict_get r "href" "" in
      let snippet_ := dict_get r "body" "" in
      full_text_ <- fetch_full_text link_ 10 ;;
      if negb (truthy full_text_) then
        print (D_skipped link_) ;;;
        search_duckduckgo_loop raw_results' binary_labels results
      else
        relate_score <- get_relate_domain_score env full_text_ binary_labels ;;
        search_duckduckgo_loop raw_results' binary_labels
          (results ++ [{| title := title_;
                          link := link_;
                          snippet := snippet_;
                          full_text := full_text_;
                          academic_score := relate_score |}])
  end.

Definition search_duckduckgo (query binary_labels : str) (max_results : Z)
  : M env (list ResultRecord) :=
  raw_results <- call_net (Ev_ddgs_text query max_results)
                          (ddgs_text env query max_results) ;;
  search_duckduckgo_loop raw_results binary_labels [].

End Run.

(** Two standard outputs: one that takes every message, and one whose
    encoding has none of the characters of the messages of the source,
    which are all written in Chinese. *)
Definition quiet (env : Env) : diagnostic -> Net env -> result unit :=
  fun _ _ => Return tt.

Definition UnicodeEncodeError : exn :=
  OtherException "UnicodeEncodeError".

Definition ascii_only (env : Env) : diagnostic -> Net env -> result unit :=
  fun _ _ => Raise UnicodeEncodeError.

End Printing.

Section Loud.

Variable env : Env.
Variable stdout_write : diagnostic -> Net env -> result unit.

(** Some print raised [e]. *)
Definition print_raised (e : exn) : Prop :=
  exists d n, stdout_write d n = Raise e.

(** [m] raises nothing but what satisfies [R]. *)
Definition raises_only {A} (R : exn -> Prop) (m : M env A) : Prop :=
  forall n e n' ev, m n = (Raise e, n', ev) -> R e.

(** What [m] returns satisfies [Q]. *)
Definition yields {A} (Q : A -> Prop) (m : M env A) : Prop :=
  forall n a n' ev, m n = (Return a, n', ev) -> Q a.

(** The events of an extraction: calls of the extraction libraries, and
    diagnostics other than the skip message of the pipeline. *)
Definition is_extraction (e : event) : bool :=
  match e with
  | Ev_pdfplumber _ | Ev_convert_from_bytes _ | Ev_Image_open _
  | Ev_image_to_string | Ev_BeautifulSoup _ => true
  | Ev_print (D_skipped _) => false
  | Ev_print _ => true
  | _ => false
  end.


Local Abbreviation print' := (Printing.print env stdout_write).
Local Abbreviation parse_pdf_with_pdfplumber' :=
  (Printing.parse_pdf_with_pdfplumber env stdout_write).
Local Abbreviation parse_pdf_with_ocr_loop' :=
  (Printing.parse_pdf_with_ocr_loop env stdout_write).
Local Abbreviation parse_pdf_with_ocr' :=
  (Printing.parse_pdf_with_ocr env stdout_write).
Local Abbreviation parse_image_with_ocr' :=
  (Printing.parse_image_with_ocr env stdout_write).
Local Abbreviation fetch_full_text_requests' :=
  (Printing.fetch_full_text_requests env stdout_write).
Local Abbreviation fetch_full_text' :=
  (Printing.fetch_full_text env stdout_write).
Local Abbreviation search_duckduckgo_loop' :=
  (Printing.search_duckduckgo_loop env stdout_write).
Local Abbreviation search_duckduckgo' :=
  (Printing.search_duckduckgo env stdout_write).

(** ** Where an exception can come from *)

Lemma raises_only_ret {A} R (a : A) : raises_only R (ret a).
Proof. intros n e n' ev. discriminate. Qed.

Lemma raises_only_print d : raises_only print_raised (print' d).
Proof.
  intros n e n' ev. unfold Printing.print. intros [= H _ _].
  now exists d, n.
Qed.

Lemma raises_only_bind {A B} R (m : M env A) (k : A -> M env B) :
  raises_only R m -> (forall a, raises_only R (k a)) ->
  raises_only R (bind m k).
Proof.
  intros Hm Hk n e n' ev. unfold bind.
  destruct (m n) as [[[a|e0] n1] ev1] eqn:E.
  - destruct (k a n1) as [[r n2] ev2] eqn:K. intros [= -> <- <-].
    eapply Hk; eauto.
  - intros [= <- <- <-]. eapply Hm; eauto.
Qed.

(** What escapes a [try] is what its handler raises. *)
Lemma raises_only_try_except {A} R (m : M env A) (h : exn -> M env A) :
  (forall e, raises_only R (h e)) -> raises_only R (try_except m h).
Proof.
  intros Hh n e n' ev. unfold try_except.
  destruct (m n) as [[[a|e0] n1] ev1]; [discriminate|].
  destruct (h e0 n1) as [[r n2] ev2] eqn:H. intros [= -> <- <-].
  eapply Hh; eauto.
Qed.

Lemma raises_only_returns {A} R (m : M env A) :
  returns m -> raises_only R m.
Proof.
  intros H n e n' ev E. destruct (H n) as (a & n1 & ev1 & E'). congruence.
Qed.

Lemma print_then_ret_raises {A} d (a : A) :
  raises_only print_raised (bind (print' d) (fun _ => ret a)).
Proof.
  apply raises_only_bind; [apply raises_only_print|].
  intros _. apply raises_only_ret.
Qed.

(** The fetcher raises only what the print of one of its two handlers
    raises. *)
Lemma fetcher_raises url timeout n e n' ev :
  fetch_full_text_requests' url timeout n = (Raise e, n', ev) ->
  exists e0 n0, stdout_write (fetch_diagnostic url e0) n0 = Raise e.
Proof.
  unfold Printing.fetch_full_text_requests, try_except.
  match goal with
  | |- context [match ?body n with _ => _ end] =>
      destruct (body n) as [[[t|e0] n1] ev1]
  end; [discriminate|].
  unfold fetch_diagnostic.
  destruct (is_RequestException e0) eqn:Q;
    unfold bind, Printing.print, ret;
    match goal with
    | |- context [stdout_write ?d n1] =>
        destruct (stdout_write d n1) as [[]|e1] eqn:W
    end; try discriminate; intros [= <- _ _];
    exists e0, n1; now rewrite Q.
Qed.

Lemma gated_fetch_raises url timeout :
  raises_only print_raised (fetch_full_text' url timeout).
Proof.
  unfold Printing.fetch_full_text.
  apply raises_only_bind.
  - apply raises_only_returns, can_crawl_returns.
  - intros [|]; cbn [negb USE_SELENIUM].
    + intros n e n' ev E.
      destruct (fetcher_raises _ _ _ _ _ _ E) as (e0 & n0 & W).
      now exists (fetch_diagnostic url e0), n0.
    + apply print_then_ret_raises.
Qed.

(** ** What is returned, and what is emitted *)

Lemma yields_ret {A} (Q : A -> Prop) a : Q a -> yields Q (ret a).
Proof. intros H n a' n' ev [= <- _ _]. exact H. Qed.

Lemma yields_bind_dep {A B} (P : A -> Prop) (Q : B -> Prop)
    (m : M env A) (k : A -> M env B) :
  yields P m -> (forall a, P a -> yields Q (k a)) -> yields Q (bind m k).
Proof.
  intros Hm Hk n b n' ev. unfold bind.
  destruct (m n) as [[[a|e0] n1] ev1] eqn:E; [|discriminate].
  destruct (k a n1) as [[r n2] ev2] eqn:K. intros [= -> <- <-].
  eapply Hk; eauto.
Qed.

Lemma yields_bind {A B} (Q : B -> Prop) (m : M env A) (k : A -> M env B) :
  (forall a, yields Q (k a)) -> yields Q (bind m k).
Proof.
  intros Hk. apply (yields_bind_dep (fun _ => True)); auto.
  intros n a n' ev _. exact I.
Qed.

Lemma yields_try_except {A} (Q : A -> Prop) (m : M env A) h :
  yields Q m -> (forall e, yields Q (h e)) -> yields Q (try_except m h).
Proof.
  intros Hm Hh n a n' ev. unfold try_except.
  destruct (m n) as [[[a0|e0] n1] ev1] eqn:E.
  - intros [= <- <- <-]. eapply Hm; eauto.
  - destruct (h e0 n1) as [[r n2] ev2] eqn:H. intros [= -> <- <-].
    eapply Hh; eauto.
Qed.

Lemma emits_loud_print (P : event -> bool) d :
  P (Ev_print d) = true -> emits P (print' d).
Proof. intros H n. unfold Printing.print, events_of. cbn. now rewrite H. Qed.

Ltac quiet_run :=
  repeat first
    [ apply emits_ret | apply emits_raise | apply emits_lift
    | apply emits_call; reflexivity
    | apply emits_call_net; reflexivity
    | apply emits_loud_print; reflexivity
    | apply emits_bind; [|intros ?]
    | apply emits_try_except; [|intros ?]
    | apply yields_ret
    | apply yields_try_except; [|intros ?]
    | apply yields_bind; intros ? ].

Lemma loud_pdfplumber_facts b :
  emits is_extraction (parse_pdf_with_pdfplumber' b)
  /\ yields settled (parse_pdf_with_pdfplumber' b).
Proof.
  unfold Printing.parse_pdf_with_pdfplumber. split; quiet_run.
  - apply normalize_settled.
  - apply empty_settled.
Qed.

Lemma loud_ocr_loop_emits images :
  forall ocr_texts,
    emits is_extraction (parse_pdf_with_ocr_loop' images ocr_texts).
Proof.
  induction images as [|img images IH]; intros acc;
    cbn [Printing.parse_pdf_with_ocr_loop].
  - apply emits_ret.
  - apply emits_bind; [|intros ?; apply IH].
    apply emits_try_except.
    + apply emits_bind; [now apply emits_call|].
      intros t. destruct (truthy (normalize t)); apply emits_ret.
    + intros e. quiet_run.
Qed.

Lemma loud_ocr_loop_yields images :
  forall ocr_texts,
    Forall piece ocr_texts ->
    yields (Forall piece) (parse_pdf_with_ocr_loop' images ocr_texts).
Proof.
  induction images as [|img images IH]; intros acc F;
    cbn [Printing.parse_pdf_with_ocr_loop].
  - now apply yields_ret.
  - apply (yields_bind_dep (Forall piece)); [|intros a Fa; now apply IH].
    apply yields_try_except.
    + apply yields_bind. intros t.
      destruct (truthy (normalize t)) eqn:T; apply yields_ret; auto.
      apply Forall_app. split; auto. constructor; auto.
      split; auto. apply normalize_normalized.
    + intros e. apply yields_bind. intros _. now apply yields_ret.
Qed.

Lemma loud_ocr_facts b :
  emits is_extraction (parse_pdf_with_ocr' b)
  /\ yields settled (parse_pdf_with_ocr' b).
Proof.
  unfold Printing.parse_pdf_with_ocr. split.
  - apply emits_bind; [quiet_run|].
    intros [images|]; [|apply emits_ret].
    apply emits_bind; [apply loud_ocr_loop_emits|]. intros; apply emits_ret.
  - apply yields_bind. intros [images|]; [|apply yields_ret, empty_settled].
    apply (yields_bind_dep (Forall piece)).
    + now apply loud_ocr_loop_yields.
    + intros l F. apply yields_ret. now apply join_pieces_settled.
Qed.

Lemma loud_image_facts b :
  emits is_extraction (parse_image_with_ocr' b)
  /\ yields settled (parse_image_with_ocr' b).
Proof.
  unfold Printing.parse_image_with_ocr. split; quiet_run.
  - apply normalize_settled.
  - apply empty_settled.
Qed.

Lemma html_facts html :
  emits is_extraction (parse_html env html)
  /\ yields settled (parse_html env html).
Proof.
  unfold parse_html. split; quiet_run. apply normalize_settled.
Qed.

(** What follows the request in the fetcher, and its handler. *)
Definition after_request (url : str) (resp : Response) : M env str :=
  if negb (status_code resp =? 200)%Z
  then bind (print' (D_http_error (status_code resp)))
            (fun _ => ret EmptyString)
  else
    bind (lift (content resp)) (fun content_bytes =>
    match classify (content_type_of resp) url with
    | PDF =>
        bind (parse_pdf_with_pdfplumber' content_bytes) (fun text =>
        if negb (truthy (strip text))
        then bind (print' D_pdfplumber_no_text)
                  (fun _ => parse_pdf_with_ocr' content_bytes)
        else ret text)
    | IMAGE => parse_image_with_ocr' content_bytes
    | HTML => bind (lift (text resp)) (fun html_text => parse_html env html_text)
    | UNKNOWN =>
        bind (print' (D_unknown_content_type (content_type_of resp)))
             (fun _ => ret EmptyString)
    end).

Definition fetch_handler (url : str) (e : exn) : M env str :=
  if is_RequestException e
  then bind (print' (D_connect_failed url e)) (fun _ => ret EmptyString)
  else bind (print' (D_cannot_fetch url e)) (fun _ => ret EmptyString).

Lemma fetcher_shape url timeout :
  fetch_full_text_requests' url timeout
  = try_except
      (bind (call_net (Ev_requests_get url timeout)
               (requests_get env url fetch_headers timeout true))
            (after_request url))
      (fetch_handler url).
Proof. reflexivity. Qed.

Lemma after_request_facts url resp :
  emits is_extraction (after_request url resp)
  /\ yields settled (after_request url resp).
Proof.
  unfold after_request.
  destruct (negb (status_code resp =? 200)%Z).
  { split; quiet_run. apply empty_settled. }
  split.
  - apply emits_bind; [apply emits_lift|]. intros b.
    destruct (classify (content_type_of resp) url).
    + apply emits_bind; [apply loud_pdfplumber_facts|].
      intros t. destruct (negb (truthy (strip t))); [|apply emits_ret].
      apply emits_bind; [now apply emits_loud_print|].
      intros _. apply loud_ocr_facts.
    + apply loud_image_facts.
    + apply emits_bind; [apply emits_lift|]. intros h. apply html_facts.
    + quiet_run.
  - apply yields_bind. intros b.
    destruct (classify (content_type_of resp) url).
    + apply (yields_bind_dep settled); [apply loud_pdfplumber_facts|].
      intros t St. destruct (negb (truthy (strip t))).
      * apply yields_bind. intros _. apply loud_ocr_facts.
      * now apply yields_ret.
    + apply loud_image_facts.
    + apply yields_bind. intros h. apply html_facts.
    + quiet_run. apply empty_settled.
Qed.

Lemma fetch_handler_facts url e :
  emits is_extraction (fetch_handler url e)
  /\ yields settled (fetch_handler url e).
Proof.
  unfold fetch_handler.
  destruct (is_RequestException e); split; quiet_run; apply empty_settled.
Qed.

(** Whatever standard output does: the request is the first event of the
    fetcher and the only one that is not an event of the extraction, and a
    text that is returned is settled. *)
Lemma loud_fetcher_facts url timeout n :
  (exists ev,
      events_of (fetch_full_text_requests' url timeout n)
      = Ev_requests_get url timeout :: ev
      /\ forallb is_extraction ev = true)
  /\ (forall t, result_of (fetch_full_text_requests' url timeout n) = Return t ->
                settled t).
Proof.
  rewrite fetcher_shape. unfold try_except, bind, call_net.
  destruct (requests_get env url fetch_headers timeout true n)
    as [[resp|e] n1].
  - destruct (after_request_facts url resp) as [Ae Ay].
    specialize (Ae n1). specialize (Ay n1). unfold events_of in Ae.
    destruct (after_request url resp n1) as [[[t|e] n2] ev2]; cbn in *.
    + split; [now exists ev2|]. intros t' [= <-]. eapply Ay; eauto.
    + destruct (fetch_handler_facts url e) as [He Hy].
      specialize (He n2). specialize (Hy n2). unfold events_of in He.
      destruct (fetch_handler url e n2) as [[r n3] ev3]. cbn in *.
      split.
      * eexists. split; [reflexivity|]. now rewrite forallb_app, Ae, He.
      * intros t' ->. eapply Hy; eauto.
  - destruct (fetch_handler_facts url e) as [He Hy].
    specialize (He n1). specialize (Hy n1). unfold events_of in He.
    destruct (fetch_handler url e n1) as [[r n3] ev3]. cbn in *.
    split.
    + now exists ev3.
    + intros t' ->. eapply Hy; eauto.
Qed.

Lemma extraction_events ev :
  forallb is_extraction ev = true ->
  forallb is_fetch_event ev = true /\ filter is_network ev = [].
Proof.
  induction ev as [|e ev IH]; auto. cbn [forallb filter].
  intros H. apply andb_true_iff in H as [H1 H2].
  destruct (IH H2) as [-> ->].
  destruct e as [| | | | | | | | |[]]; try discriminate; auto.
Qed.

(** ** The gated fetch *)

Lemma can_crawl_events url n b n1 ev1 :
  can_crawl env url n = (Return b, n1, ev1) ->
  (ev1 = [] /\ b = true)
  \/ ev1 = [Ev_requests_get (robots_url_of env url) 15].
Proof.
  rewrite can_crawl_run.
  destruct (ROBOTS_PARSER_AVAILABLE env && truthy (registered_domain env url)).
  - destruct (requests_get env (robots_url_of env url) [] 15%Z false n)
      as [[resp|e] n2]; intros [= _ _ <-]; auto.
  - intros [= <- _ <-]; auto.
Qed.

(** X10. Whatever standard output does, a gated fetch makes two requests
    at most, the one for the policy before the one for the document: the
    document alone (no parser, or no domain), the policy and then the
    document, or the policy alone, when it denies the url, and then no
    text is returned but the empty one.  It never starts a browser,
    searches or calls the classifier; a text that it returns is never made
    of white space only; and it raises nothing but what the print of a
    diagnostic raises. *)
Theorem gated_fetch_footprint url timeout n r n' ev :
  fetch_full_text' url timeout n = (r, n', ev) ->
  forallb is_fetch_event ev = true
  /\ (filter is_network ev = [Ev_requests_get url timeout]
      \/ filter is_network ev
         = [Ev_requests_get (robots_url_of env url) 15;
            Ev_requests_get url timeout]
      \/ (filter is_network ev = [Ev_requests_get (robots_url_of env url) 15]
          /\ forall t, r = Return t -> t = EmptyString))
  /\ (forall t, r = Return t -> all_space t = true -> t = EmptyString)
  /\ (forall e, r = Raise e -> exists d n0, stdout_write d n0 = Raise e).
Proof.
  intros E.
  assert (S0 : forall t, settled t -> all_space t = true -> t = EmptyString).
  { intros t St B. apply strip_empty_iff in B. unfold settled in St.
    rewrite B in St. destruct t; [reflexivity|discriminate]. }
  assert (R : forall e, r = Raise e -> exists d n0, stdout_write d n0 = Raise e).
  { intros e ->. exact (gated_fetch_raises url timeout _ _ _ _ E). }
  destruct (can_crawl_returns env url n) as (b & n1 & ev1 & C).
  pose proof (can_crawl_events _ _ _ _ _ C) as E1.
  unfold Printing.fetch_full_text in E.
  rewrite (bind_Return _ _ _ _ _ _ _ C) in E.
  destruct b; cbn [negb USE_SELENIUM] in E.
  - destruct (loud_fetcher_facts url timeout n1) as [(ev2 & Ev & X) St].
    unfold events_of, result_of in Ev, St.
    destruct (fetch_full_text_requests' url timeout n1) as [[r2 n2] ev0].
    cbn in Ev, St. subst ev0. injection E as <- <- <-.
    destruct (extraction_events _ X) as [F N].
    split; [|split; [|split; [|exact R]]].
    + rewrite forallb_app. cbn [forallb is_fetch_event]. rewrite F.
      destruct E1 as [[-> _] | ->]; reflexivity.
    + rewrite filter_app. cbn [filter is_network]. rewrite N.
      destruct E1 as [[-> _] | ->]; [left|right; left]; reflexivity.
    + intros t ->. apply S0. now apply St.
  - destruct E1 as [[_ ?] | ->]; [discriminate|].
    unfold bind, Printing.print, ret in E.
    destruct (stdout_write (D_robots_disallowed url) n1) as [[]|e0];
      injection E as <- <- <-;
      (split; [reflexivity|]; split; [|split; [|exact R]]).
    + right. right. split; [reflexivity|]. now intros t [= <-].
    + now intros t [= <-].
    + right. right. split; [reflexivity|]. discriminate.
    + discriminate.
Qed.

(** ** The pipeline *)

(** The loop raises what the scorer raises on the text fetched for a hit,
    or what a print raises. *)
Lemma loud_loop_raises raw binary_labels :
  forall results n e n' ev,
    search_duckduckgo_loop' raw binary_labels results n = (Raise e, n', ev) ->
    (exists r t n0 n2 ev0,
        In r raw
        /\ fetch_full_text' (dict_get r "href" "") 10 n0 = (Return t, n2, ev0)
        /\ truthy t = true
        /\ result_of (get_relate_domain_score env t binary_labels n2) = Raise e)
    \/ exists d n0, stdout_write d n0 = Raise e.
Proof.
  induction raw as [|r0 raw IH]; intros acc n e n' ev.
  - discriminate.
  - cbn [Printing.search_duckduckgo_loop]. unfold bind at 1.
    destruct (fetch_full_text' (dict_get r0 "href" "") 10 n)
      as [[[t|e0] n1] ev1] eqn:F.
    + destruct (truthy t) eqn:T; cbn [negb].
      * unfold bind at 1.
        destruct (get_relate_domain_score env t binary_labels n1)
          as [[[s|e1] n2] ev2] eqn:G.
        -- destruct (search_duckduckgo_loop' raw binary_labels _ n2)
             as [[res n3] ev3] eqn:L.
           intros [= -> <- <-].
           destruct (IH _ _ _ _ _ L)
             as [(r & t' & n0 & n4 & ev0 & I & F' & T' & S)|P]; [left|now right].
           exists r, t', n0, n4, ev0. repeat split; auto. now right.
        -- intros [= <- <- <-]. left.
           exists r0, t, n, n1, ev1. repeat split; auto; [now left|].
           now rewrite G.
      * unfold bind at 1. unfold Printing.print at 1.
        destruct (stdout_write (D_skipped (dict_get r0 "href" "")) n1)
          as [[]|e1] eqn:W.
        -- destruct (search_duckduckgo_loop' raw binary_labels acc n1)
             as [[res n3] ev3] eqn:L.
           intros [= -> <- <-].
           destruct (IH _ _ _ _ _ L)
             as [(r & t' & n0 & n4 & ev0 & I & F' & T' & S)|P]; [left|now right].
           exists r, t', n0, n4, ev0. repeat split; auto. now right.
        -- intros [= <- <- <-]. right.
           now exists (D_skipped (dict_get r0 "href" "")), n1.
    + intros [= <- <- <-]. right.
      exact (gated_fetch_raises _ _ _ _ _ _ F).
Qed.

(** X19. Whatever standard output does, the pipeline raises only what the
    search call raises, what the scorer raises on the text fetched for one
    of the hits, or what the print of a diagnostic raises: a gate, a
    request or an extractor that fails never ends the run by itself. *)
Theorem run_raises_only_from_search_scorer_or_print
    query binary_labels max_results n e n' ev :
  search_duckduckgo' query binary_labels max_results n = (Raise e, n', ev) ->
  (exists n1, ddgs_text env query max_results n = (Raise e, n1))
  \/ (exists raw n1 r t n0 n2 ev0,
         ddgs_text env query max_results n = (Return raw, n1)
         /\ In r raw
         /\ fetch_full_text' (dict_get r "href" "") 10 n0 = (Return t, n2, ev0)
         /\ truthy t = true
         /\ result_of (get_relate_domain_score env t binary_labels n2)
            = Raise e)
  \/ exists d n0, stdout_write d n0 = Raise e.
Proof.
  unfold Printing.search_duckduckgo, bind, call_net.
  destruct (ddgs_text env query max_results n) as [[raw|e0] n1] eqn:D.
  - destruct (search_duckduckgo_loop' raw binary_labels [] n1)
      as [[res n2] ev2] eqn:L.
    intros [= -> <- <-].
    destruct (loud_loop_raises _ _ _ _ _ _ _ L)
      as [(r & t & n0 & n4 & ev0 & I & F & T & S)|P]; [|now right; right].
    right. left. now exists raw, n1, r, t, n0, n4, ev0.
  - intros [= <- <- <-]. left. now exists n1.
Qed.

(** ** With a standard output that takes every message *)











End Loud.

(** ** Runs with a standard output that refuses the diagnostics *)



(** The url is denied and the message that says so cannot be printed: the
    gated fetch raises, after the policy request alone. *)
Lemma gated_fetch_footprint_witness :
  Printing.fetch_full_text Web.W (Printing.ascii_only Web.W)
    "http://blocked.example/x" 10 0
  = (Raise Printing.UnicodeEncodeError, 1,
     [Ev_requests_get "http://blocked.example/robots.txt" 15;
      Ev_print (D_robots_disallowed "http://blocked.example/x")])
  /\ exists d n0,
       Printing.ascii_only Web.W d n0 = Raise Printing.UnicodeEncodeError.
Proof.
  split; [reflexivity|].
  exact (proj2 (proj2 (proj2
           (gated_fetch_footprint Web.W (Printing.ascii_only Web.W)
              "http://blocked.example/x" 10 0 _ _ _ eq_refl)))
           Printing.UnicodeEncodeError eq_refl).
Defined.

Lemma run_raises_only_from_search_scorer_or_print_witness :
  (exists n1,
      ddgs_text Flaky.world "q" 5 0 = (Raise Flaky.out_of_memory, n1))
  \/ (exists raw n1 r t n0 n2 ev0,
         ddgs_text Flaky.world "q" 5 0 = (Return raw, n1)
         /\ In r raw
         /\ Printing.fetch_full_text Flaky.world (Printing.quiet Flaky.world)
              (dict_get r "href" "") 10 n0
            = (Return t, n2, ev0)
         /\ truthy t = true
         /\ result_of (get_relate_domain_score Flaky.world t
                         "Academic Non-Academic" n2)
            = Raise Flaky.out_of_memory)
  \/ exists d n0,
       Printing.quiet Flaky.world d n0 = Raise Flaky.out_of_memory.
Proof.
  exact (run_raises_only_from_search_scorer_or_print Flaky.world
           (Printing.quiet Flaky.world) "q" "Academic Non-Academic" 5 0
           Flaky.out_of_memory _ _ eq_refl).
Defined.

(** The second hit is denied and the message that says so cannot be
    printed: the run ends there, and the record of the first hit is lost. *)
Example run_two_hits_ascii_stdout :
  Printing.search_duckduckgo Web.W (Printing.ascii_only Web.W)
    "q" "Academic Non-Academic" 5 0
  = (Raise Printing.UnicodeEncodeError, 4,
     [Ev_ddgs_text "q" 5;
      Ev_requests_get "http://example.com/robots.txt" 15;
      Ev_requests_get "http://example.com/a.pdf" 10;
      Ev_pdfplumber Web.text_pdf;
      Ev_classifier "Hello World" ["Academic"; "Non-Academic"];
      Ev_requests_get "http://blocked.example/robots.txt" 15;
      Ev_print (D_robots_disallowed "http://blocked.example/x")]).
Proof. reflexivity. Qed.
